(** * BMEdit GameLib: scene object properties loader, type registry, GMS entity

    A shallow embedding of
    - [GameLib/Scene/SceneObjectPropertiesLoader.cpp] ([load], [InternalContext::visitImpl]),
    - [GameLib/TypeRegistry.h] ([TypeRegistry::registerType]),
    - the [gamelib::gms::GMSGeomEntity] class declaration,
    followed by the properties established about them. *)

From Stdlib Require Import ZArith Lia.
From stdpp Require Import base option list strings gmap fin_maps.

(** ** PRP instruction stream *)

(** Modelled from the spec: the opcode vocabulary of [gamelib::prp::PRPOpCode]
    (the enum itself is declared in a header outside the embedded sources). *)
Module PRPOpCode.
Inductive t : Set :=
| BeginObject
| BeginNamedObject
| EndObject
| Container
| NamedContainer
| String
| Trivial.

#[global] Instance eq_dec : EqDecision t.
Proof. solve_decision. Defined.
End PRPOpCode.

(** Modelled from the spec: the operand of an instruction. The loader reads
    [getOperand().trivial.i32] and [getOperand().str] whatever the opcode is,
    so both members are present on every operand. *)
Record PRPOperandVal : Set := mkOperand {
  trivial_i32 : Z;
  str : string
}.

Record PRPInstruction : Set := mkInstruction {
  getOpCode : PRPOpCode.t;
  getOperand : PRPOperandVal
}.

(** Modelled from the spec: [Span<T>], the bounds-checked, sliceable window
    (data pointer and size) over a sequence. A span is a value: copying it
    copies the window, never the cursor of somebody else. A null span is the
    empty window. *)
Module Span.
Section Ops.
Context {T : Type}.

Definition t : Type := list T.

(** [span.size] (an [int64_t]). *)
Definition size (s : list T) : Z := Z.of_nat (length s).

(** [span.empty()]. *)
Definition empty (s : list T) : bool :=
  match s with [] => true | _ :: _ => false end.

(** [explicit operator bool]: data is non-null and size is non-zero. *)
Definition to_bool (s : list T) : bool := negb (empty s).

(** [span[0]]: [None] stands for the bounds check failing. *)
Definition at0 (s : list T) : option T := head s.

(** [++span]: the window loses its first element. *)
Definition next (s : list T) : list T := tail s.

(** [span.slice(offset, size)]. *)
Definition slice (s : list T) (offset sz : Z) : list T :=
  take (Z.to_nat sz) (drop (Z.to_nat offset) s).
End Ops.
End Span.

(** ** Types and values *)

(** Modelled from the spec: the kinds of a type descriptor ([TypeKind]). *)
Module TypeKind.
Inductive t : Set := PRIMITIVE | ENUM | ARRAY | COMPLEX.

#[global] Instance eq_dec : EqDecision t.
Proof. solve_decision. Defined.
End TypeKind.

(** Modelled from the spec: the decoded payload of a [Value]. *)
#[local] Unset Elimination Schemes.
Inductive Payload : Set :=
| PScalar (z : Z)
| PArray (items : list Payload)
| PComplex (fields : list (string * Payload)).
#[local] Set Elimination Schemes.

(** Modelled from the spec: [Value], a decoded payload together with the
  instruction list that [getInstructions()] exposes for appending. *)
Record Value : Set := mkValue {
payload : Payload;
getInstructions : list PRPInstruction
}.

Definition appendInstructions (extra : list PRPInstruction) (v : Value) : Value :=
{| payload := payload v; getInstructions := getInstructions v ++ extra |}.

(** [gamelib::Type] as the loader sees it: a name, a kind, the two-phase
  [verify]/[map] contract over an instruction window, and (for
  [TypeComplex]) [areUnexposedInstructionsAllowed()]. The bodies of
  [verify] and [map] belong to each descriptor, so they are fields. *)
Record Type_ : Type := mkType {
getName : string;
getKind : TypeKind.t;
verify : list PRPInstruction -> bool * list PRPInstruction;
map : list PRPInstruction -> option Value * list PRPInstruction;
areUnexposedInstructionsAllowed : bool
}.

(** Addresses of heap objects ([Type*], [SceneObject::Ptr]). *)
Abbreviation ptr := N (only parsing).

(** ** Scene objects and the loader *)

(** Modelled from the spec: [SceneObject], a placeholder carrying its type id,
  filled in place with properties and controllers; a weak back-reference to
  its parent and an owned list of children. [setParent] stores the
  back-reference. *)
Record SceneObject : Type := mkSceneObject {
getTypeId : N;
getProperties : option Value;
getControllers : gmap string Value;
getParent : option ptr;
getChildren : list ptr
}.

Definition setControllers (c : gmap string Value) (o : SceneObject) : SceneObject :=
{| getTypeId := getTypeId o; getProperties := getProperties o;
   getControllers := c; getParent := getParent o; getChildren := getChildren o |}.

Definition setProperties (v : Value) (o : SceneObject) : SceneObject :=
{| getTypeId := getTypeId o; getProperties := Some v;
   getControllers := getControllers o; getParent := getParent o;
   getChildren := getChildren o |}.

Definition setParent (p : ptr) (o : SceneObject) : SceneObject :=
{| getTypeId := getTypeId o; getProperties := getProperties o;
   getControllers := getControllers o; getParent := Some p;
   getChildren := getChildren o |}.

(** What the loader can throw. The two constructors of
  [SceneObjectTypeNotFoundException] (by type id, by name) share one
  constructor here; [OutOfRange] is the bounds check of [Span];
  [InvalidPointer] stands for dereferencing an address that holds no
  scene object; and [FormatError] is [fmt::format_error], which
  [fmt::format] throws when its format string has a replacement field and
  no argument was passed for it. *)
Inductive MissingType : Set :=
| MissingHash (typeId : N)
| MissingName (name : string).

Inductive Exception : Set :=
| SceneObjectVisitorException (objectIdx : Z) (message : string)
| SceneObjectTypeNotFoundException (objectIdx : Z) (missing : MissingType)
| OutOfRange
| InvalidPointer
| FormatError.

(** [struct InternalContext]. *)
Record InternalContext : Set := mkContext { objectIdx : Z }.

(** The mutable world of one decode: the context shared by every frame of
  [visitImpl] and the scene objects the [SceneObject::Ptr]s point to. *)
Record Machine : Type := mkMachine {
ctx : InternalContext;
heap : gmap ptr SceneObject
}.

(** Outcome of a computation: a value or a thrown exception, each with the
  world as it is at that moment (objects filled in before a throw stay
  filled in). *)
Inductive Result (A : Type) : Type :=
| Ok (a : A) (m : Machine)
| Throw (e : Exception) (m : Machine).
Arguments Ok {A} a m.
Arguments Throw {A} e m.

Definition Decode (A : Type) : Type := Machine -> Result A.

Definition ret {A} (a : A) : Decode A := fun m => Ok a m.

Definition bind {A B} (c : Decode A) (k : A -> Decode B) : Decode B :=
fun m => match c m with
         | Ok a m' => k a m'
         | Throw e m' => Throw e m'
         end.

Definition throw {A} (e : Exception) : Decode A := fun m => Throw e m.

Declare Scope decode_scope.
Delimit Scope decode_scope with decode.
Notation "'let*' x ':=' c 'in' k" := (bind c (fun x => k))
(at level 10, x pattern, c at level 100, k at level 200) : decode_scope.
Notation "c ';;' k" := (bind c (fun _ => k))
(at level 100, k at level 200, right associativity) : decode_scope.
Local Open Scope decode_scope.

(** [throw SceneObjectVisitorException(objectIdx, message)]. *)
Definition throwVisitor {A} (message : string) : Decode A :=
fun m => Throw (SceneObjectVisitorException (objectIdx (ctx m)) message) m.

(** [throw SceneObjectTypeNotFoundException(objectIdx, ...)]. *)
Definition throwTypeNotFound {A} (missing : MissingType) : Decode A :=
fun m => Throw (SceneObjectTypeNotFoundException (objectIdx (ctx m)) missing) m.

(** [ip[0]]. *)
Definition at0 {T} (s : list T) : Decode T :=
match Span.at0 s with
| Some x => ret x
| None => throw OutOfRange
end.

(** [NEXT_OBJECT]: [++objectIdx] on a [uint32_t]. *)
Definition nextObject : Decode unit :=
fun m => Ok tt {| ctx := {| objectIdx := (objectIdx (ctx m) + 1) mod 2 ^ 32 |};
                 heap := heap m |}.

(** [object->getTypeId()]. *)
Definition readTypeId (o : ptr) : Decode N :=
fun m => match heap m !! o with
         | Some obj => Ok (getTypeId obj) m
         | None => Throw InvalidPointer m
         end.

(** In-place update of the object behind a pointer. *)
Definition update (o : ptr) (f : SceneObject -> SceneObject) : Decode unit :=
fun m => Ok tt {| ctx := ctx m; heap := alter f o (heap m) |}.

Definition isBegin (i : PRPInstruction) : bool :=
bool_decide (getOpCode i = PRPOpCode.BeginObject)
|| bool_decide (getOpCode i = PRPOpCode.BeginNamedObject).

Definition isEndObject (i : PRPInstruction) : bool :=
bool_decide (getOpCode i = PRPOpCode.EndObject).

Section Loader.

(** [TypeRegistry::getInstance().findTypeByHash] and [findTypeByShortName]:
    the catalog the loader consults (their bodies are outside the embedded
    sources, so the catalog is a parameter of the loader). *)
Variable findTypeByHash : N -> option Type_.
Variable findTypeByShortName : string -> option Type_.

(** The [while] loop that finds the nearest [EndObject]: [rest] is
    [end.slice(1, end.size - 1)] (see [slice_tail]). *)
Fixpoint findEndObject (end_ : list PRPInstruction) (endOffset : Z)
  : list PRPInstruction * Z :=
  match end_ with
  | [] => (end_, endOffset)
  | i :: rest =>
      if isEndObject i then (end_, endOffset)
      else findEndObject rest (endOffset + 1)
  end.

(** The body of the "unexposed instructions" branch of a controller. *)
Definition extractUnexposed (controllerName : string)
    (ip : list PRPInstruction) (controllers : gmap string Value)
  : Decode (list PRPInstruction * gmap string Value) :=
  let begin_ := ip in
  let '(end_, endOffset) := findEndObject ip 0 in
  if Span.empty end_ then
    throwVisitor ("Invalid controller definition: We have controller '"
                  +:+ controllerName
                  +:+ "' with unexposed instructions and without EndObject instruction!")
  else
    let unexposedInstructions :=
      Span.slice begin_ 0 (Span.size ip - endOffset) in
    let controllers :=
      alter (appendInstructions unexposedInstructions) controllerName controllers in
    ret (Span.slice ip endOffset (Span.size ip - endOffset), controllers).

(** One iteration of the controllers loop. In the "not COMPLEX" branch the
    message of the exception is built first, by
    [fmt::format("Type '{}' not allowed to be controller because it's not COMPLEX")]:
    the format string has a replacement field and no argument is passed, so
    the call throws [fmt::format_error] and the
    [SceneObjectVisitorException] is never constructed. (The other
    [fmt::format] of the loader, in [extractUnexposed], passes its
    argument.) *)
Definition readController (ip : list PRPInstruction)
    (controllers : gmap string Value)
  : Decode (list PRPInstruction * gmap string Value) :=
  let* i := at0 ip in
  if negb (bool_decide (getOpCode i = PRPOpCode.String)) then
    throwVisitor "Invalid controller definition (Expected String)"
  else
  let controllerName := str (getOperand i) in
  let ip := Span.next ip in
  let* i := at0 ip in
  if negb (isBegin i) then
    throwVisitor "Invalid controller definition (Expected BeginObject/BeginNamedObject)"
  else
  let ip := Span.next ip in
  match findTypeByShortName controllerName with
  | None => throwTypeNotFound (MissingName controllerName)
  | Some controllerType =>
      if negb (bool_decide (getKind controllerType = TypeKind.COMPLEX)) then
        throw FormatError
      else
      let '(controllerMapResult, nextIP) := map controllerType ip in
      match controllerMapResult with
      | None => throwVisitor "Failed to map controller"
      | Some v =>
          let ip := nextIP in
          let controllers := <[controllerName := v]> controllers in
          let* i := at0 ip in
          let* (ip, controllers) :=
            (if negb (isEndObject i)
                && areUnexposedInstructionsAllowed controllerType
             then extractUnexposed controllerName ip controllers
             else ret (ip, controllers)) in
          let* i := at0 ip in
          if negb (isEndObject i) then
            throwVisitor "Invalid controller definition (Expected EndObject)"
          else
          ret (Span.next ip, controllers)
      end
  end.

(** [for (controllerIdx = 0; controllerIdx < controllersCount; ++controllerIdx)],
    by the number of iterations left. *)
Fixpoint controllersLoop (n : nat) (ip : list PRPInstruction)
    (controllers : gmap string Value)
  : Decode (list PRPInstruction * gmap string Value) :=
  match n with
  | O => ret (ip, controllers)
  | S n' =>
      let* (ip, controllers) := readController ip controllers in
      controllersLoop n' ip controllers
  end.

(** Stage 1: the opening opcode, the type lookup by hash, verify and map,
    the closing [EndObject]. Returns the mapped properties and the cursor
    after [EndObject]. *)
Definition readProperties (currentObject : ptr) (ip : list PRPInstruction)
  : Decode (Value * list PRPInstruction) :=
  let* i := at0 ip in
  if negb (isBegin i) then
    throwVisitor "Invalid object definition (expected BeginObject/BeginNamedObject)"
  else
  let ip := Span.next ip in
  let* typeId := readTypeId currentObject in
  match findTypeByHash typeId with
  | None => throwTypeNotFound (MissingHash typeId)
  | Some objectType =>
      let '(vRes, _newInstructions) := verify objectType ip in
      if negb vRes then
        throwVisitor "Invalid instructions set (verification failed)"
      else
      let '(value, newIP) := map objectType ip in
      match value with
      | None => throwVisitor "Invalid instructions set (verification failed) [2]"
      | Some properties =>
          let ip := newIP in
          let* i := at0 ip in
          if negb (isEndObject i) then
            throwVisitor "Object decl must ends with EndObject"
          else
          ret (properties, Span.next ip)
      end
  end.

(** Stage 2: the gate on the controllers container, the controller count
    and the controllers loop. *)
Definition readControllers (ip : list PRPInstruction)
  : Decode (gmap string Value * list PRPInstruction) :=
  let* i := at0 ip in
  if negb (bool_decide (getOpCode i = PRPOpCode.Container))
     && bool_decide (getOpCode i = PRPOpCode.NamedContainer) then
    throwVisitor "Invalid object definition (Expected Container/NamedContainer)"
  else
  let controllersCount := trivial_i32 (getOperand i) in
  let ip := Span.next ip in
  let* (ip, controllers) := controllersLoop (Z.to_nat controllersCount) ip ∅ in
  ret (controllers, ip).

(** Stage 3, the loop over the children: [visitChild ip] is the recursive
    call [visitImpl(currentObject, objects[0], objects.slice(1, ...), ip)],
    which receives the span [ip] by value. *)
Fixpoint visitChildren (visitChild : list PRPInstruction -> Decode unit)
    (parent : option ptr) (currentObject : ptr)
    (n : nat) (ip : list PRPInstruction) : Decode unit :=
  match n with
  | O => ret tt
  | S n' =>
      match parent with
      | Some p => update currentObject (setParent p)
      | None => ret tt
      end ;;
      nextObject ;;
      visitChild ip ;;
      let* i := at0 ip in
      if negb (isEndObject i) then
        throwVisitor "Invalid children definition (Expected EndObject)"
      else
      visitChildren visitChild parent currentObject n' (Span.next ip)
  end.

(** [InternalContext::visitImpl]. The recursion is on the span of pending
    placeholders: the child is [objects[0]] and it receives
    [objects.slice(1, objects.size - 1)]. *)
Fixpoint visitImpl (objects : list ptr) (parent : option ptr)
    (currentObject : ptr) (instructions : list PRPInstruction)
    {struct objects} : Decode unit :=
  let ip := instructions in
  let* (properties, ip) := readProperties currentObject ip in
  let* (controllers, ip) := readControllers ip in
  update currentObject (setControllers controllers) ;;
  update currentObject (setProperties properties) ;;
  let* i := at0 ip in
  if negb (bool_decide (getOpCode i = PRPOpCode.Container))
     && negb (bool_decide (getOpCode i = PRPOpCode.NamedContainer)) then
    throwVisitor "Invalid controller definition (Expected Container with children geoms)"
  else
  let childrenCount := trivial_i32 (getOperand i) in
  let ip := Span.next ip in
  visitChildren
    (fun ip => match objects with
               | [] => throw OutOfRange
               | child :: rest => visitImpl rest (Some currentObject) child ip
               end)
    parent currentObject (Z.to_nat childrenCount) ip.

(** What [load] leaves behind: it returns, or an exception escapes it. *)
Inductive Outcome : Type :=
| Returned (scene : gmap ptr SceneObject)
| Raised (e : Exception) (scene : gmap ptr SceneObject).

(** [SceneObjectPropertiesLoader::load]. *)
Definition load (objects : list ptr) (instructions : list PRPInstruction)
    (scene : gmap ptr SceneObject) : Outcome :=
  if negb (Span.to_bool objects) || negb (Span.to_bool instructions) then
    Returned scene
  else
    match objects with
    | [] => Raised OutOfRange scene
    | root :: rest =>
        match visitImpl rest None root instructions
                {| ctx := {| objectIdx := 0 |}; heap := scene |} with
        | Ok _ m => Returned (heap m)
        | Throw e m => Raised e (heap m)
        end
    end.

(** The exception is a "type not found" raised for the object at [cur]:
    it carries the current object index and either the object's own type id,
    absent from the hash index, or a controller name absent from the name
    index. *)
Definition typeNotFoundAt (m : Machine) (cur : ptr) (e : Exception) : Prop :=
  match e with
  | SceneObjectTypeNotFoundException idx missing =>
      idx = objectIdx (ctx m)
      /\ match missing with
         | MissingHash h =>
             exists obj, heap m !! cur = Some obj
                         /\ getTypeId obj = h /\ findTypeByHash h = None
         | MissingName name => findTypeByShortName name = None
         end
  | _ => True
  end.

(** The world in which the child of [currentObject] is visited: the loop
    body has stored the back-reference of [currentObject] (when it has a
    parent) and stepped the object index. *)
Definition enterChild (parent : option ptr) (currentObject : ptr) (m : Machine)
  : Machine :=
  {| ctx := {| objectIdx := (objectIdx (ctx m) + 1) mod 2 ^ 32 |};
     heap := match parent with
             | Some p => alter (setParent p) currentObject (heap m)
             | None => heap m
             end |}.

(** The world after stages 1 and 2 of [currentObject]: its controllers and
    its properties have been written. *)
Definition fillObject (currentObject : ptr) (properties : Value)
    (controllers : gmap string Value) (m : Machine) : Machine :=
  {| ctx := ctx m;
     heap := alter (setProperties properties) currentObject
               (alter (setControllers controllers) currentObject (heap m)) |}.

(** The decode of [currentObject] from [ip] in the world [m] has read the
    properties, passed the gate of stage 2 on a container announcing more
    than [k] controllers, and read [k] of them: the cursor is [ipk], the
    controllers read so far are [controllers]. *)
Definition reachesController (currentObject : ptr) (ip : list PRPInstruction)
    (m : Machine) (k : nat) (ipk : list PRPInstruction)
    (controllers : gmap string Value) : Prop :=
  exists properties gate ip1,
    readProperties currentObject ip m = Ok (properties, gate :: ip1) m
    /\ getOpCode gate <> PRPOpCode.NamedContainer
    /\ (k < Z.to_nat (trivial_i32 (getOperand gate)))%nat
    /\ controllersLoop k ip1 ∅ m = Ok (ipk, controllers) m.

(** [k] steps of [NEXT_OBJECT] from the index [z]. *)
Definition advance (k : nat) (z : Z) : Z :=
  Nat.iter k (fun z => (z + 1) mod 2 ^ 32)%Z z.

End Loader.

(** ** The type registry *)

Module TypeRegistry.

(** [std::unique_ptr<T>]: null, or the owner of a descriptor at an address. *)
Definition unique_ptr : Type := option (ptr * Type_).

(** The members of [class TypeRegistry]: the owned descriptors and the two
    indices from a hash or a name to a [Type*]. *)
Record t : Type := mk {
  m_types : list (ptr * Type_);
  m_typesByHash : gmap string ptr;
  m_typesByName : gmap string ptr
}.

(** [std::unordered_map::try_emplace]: inserts only when the key is absent
    and tells whether it did. *)
Definition try_emplace (k : string) (v : ptr) (m : gmap string ptr)
  : gmap string ptr * bool :=
  match m !! k with
  | Some _ => (m, false)
  | None => (<[k := v]> m, true)
  end.

(** [TypeRegistry::registerType]: the returned pointer, the registry
    afterwards, and what the caller's [unique_ptr] still owns. *)
Definition registerType (constructedType : unique_ptr) (self : t)
  : option ptr * t * unique_ptr :=
  match constructedType with
  | None => (None, self, constructedType)
  | Some (ptr_, ty) =>
      let '(byName, res) := try_emplace (getName ty) ptr_ (m_typesByName self) in
      let self := {| m_types := m_types self;
                     m_typesByHash := m_typesByHash self;
                     m_typesByName := byName |} in
      if negb res then (None, self, constructedType)
      else
        (Some ptr_,
         {| m_types := m_types self ++ [(ptr_, ty)];
            m_typesByHash := m_typesByHash self;
            m_typesByName := m_typesByName self |},
         None)
  end.

End TypeRegistry.

(** ** GMS geometry entities *)

Module GMSGeomEntity.

(** [static constexpr uint32_t kInvalidParent = 0xFFFFFFEEu]. *)
Definition kInvalidParent : Z := 0xFFFFFFEE.

(** The data members of [class GMSGeomEntity]; each [uint32_t] is a [Z]
    below [2 ^ 32], the union [m_unk34] is seen through its [u32] member. *)
Record t : Set := mk {
  m_parentGeomIndex : Z;
  m_depthLevel : Z;
  m_name : string;
  m_unk4 : Z;
  m_unk8 : Z;
  m_primitiveId : Z;
  m_unk10 : Z;
  m_typeId : Z;
  m_unk18 : Z;
  m_coliBits : Z;
  m_unk20 : Z;
  m_unk24 : Z;
  m_unk28 : Z;
  m_unk2C : Z;
  m_instanceId : Z;
  m_unk34 : Z;
  m_unk38 : Z;
  m_unk3C : Z
}.

(** A freshly constructed entity, by the default member initializers of the
    class; [m_unk34] has none, so its content is whatever [unk34] is. *)
Definition fresh (unk34 : Z) : t :=
  {| m_parentGeomIndex := kInvalidParent;
     m_depthLevel := 0; m_name := ""; m_unk4 := 0; m_unk8 := 0;
     m_primitiveId := 0; m_unk10 := 0; m_typeId := 0; m_unk18 := 0;
     m_coliBits := 0; m_unk20 := 0; m_unk24 := 0; m_unk28 := 0;
     m_unk2C := 0; m_instanceId := 0; m_unk34 := unk34;
     m_unk38 := 0; m_unk3C := 0 |}.

Definition getParentGeomIndex (e : t) : Z := m_parentGeomIndex e.

(** Modelled from the spec: [isInheritedOfGeom], whose body is outside the
    embedded sources; "is inherited" = parent index differs from the
    sentinel. *)
Definition isInheritedOfGeom (e : t) : bool :=
  negb (m_parentGeomIndex e =? kInvalidParent)%Z.

End GMSGeomEntity.

(** ** Sample catalog, streams and scenes

  Concrete descriptors and inputs on which the definitions above are
  evaluated further down. *)

Module Sample.

Definition instr (op : PRPOpCode.t) : PRPInstruction :=
  mkInstruction op (mkOperand 0 "").

Definition container (count : Z) : PRPInstruction :=
  mkInstruction PRPOpCode.Container (mkOperand count "").

Definition namedContainer (count : Z) : PRPInstruction :=
  mkInstruction PRPOpCode.NamedContainer (mkOperand count "").

Definition text (s : string) : PRPInstruction :=
  mkInstruction PRPOpCode.String (mkOperand 0 s).

Definition trivial (z : Z) : PRPInstruction :=
  mkInstruction PRPOpCode.Trivial (mkOperand z "").

(** A descriptor with one scalar field: it accepts one [Trivial]
    instruction and maps it to that field. *)
Definition verifyScalar (ip : list PRPInstruction) : bool * list PRPInstruction :=
  match ip with
  | i :: rest =>
      if bool_decide (getOpCode i = PRPOpCode.Trivial) then (true, rest)
      else (false, ip)
  | [] => (false, ip)
  end.

Definition mapScalar (ip : list PRPInstruction) : option Value * list PRPInstruction :=
  match ip with
  | i :: rest =>
      if bool_decide (getOpCode i = PRPOpCode.Trivial) then
        (Some {| payload := PComplex [("Value", PScalar (trivial_i32 (getOperand i)))];
                 getInstructions := [] |}, rest)
      else (None, ip)
  | [] => (None, ip)
  end.

Definition ZGEOM : Type_ :=
  mkType "ZGEOM" TypeKind.COMPLEX verifyScalar mapScalar false.

(** A controller type of an older schema: one known field, trailing
    instructions tolerated. *)
Definition ZTimer : Type_ :=
  mkType "ZTimer" TypeKind.COMPLEX verifyScalar mapScalar true.

Definition ZLIGHT : Type_ :=
  mkType "ZLIGHT" TypeKind.COMPLEX verifyScalar mapScalar false.

Definition Int32 : Type_ :=
  mkType "Int32" TypeKind.PRIMITIVE verifyScalar mapScalar false.

Definition byHash (h : N) : option Type_ :=
  if bool_decide (h = 16%N) then Some ZGEOM else None.

Definition byShortName (name : string) : option Type_ :=
  if bool_decide (name = "ZTimer") then Some ZTimer
  else if bool_decide (name = "Int32") then Some Int32
  else None.

Definition placeholder (typeId : N) : SceneObject :=
  mkSceneObject typeId None ∅ None [].

(** Three placeholders at addresses 1, 2, 3, all of type id 16. *)
Definition scene3 : gmap ptr SceneObject :=
  <[1%N := placeholder 16]> (<[2%N := placeholder 16]> (<[3%N := placeholder 16]> ∅)).

(** [BeginObject Trivial(7) EndObject], then the two containers. *)
Definition leaf : list PRPInstruction :=
  [instr PRPOpCode.BeginObject; trivial 7; instr PRPOpCode.EndObject;
   container 0; container 0].

(** One object with one child: the child's object is followed by its
    trailing [EndObject]. *)
Definition parentOfLeaf : list PRPInstruction :=
  [instr PRPOpCode.BeginObject; trivial 5; instr PRPOpCode.EndObject;
   container 0; container 1]
  ++ leaf ++ [instr PRPOpCode.EndObject].

(** A chain of three: root, its only child, and that child's only child. *)
Definition chain3 : list PRPInstruction :=
  [instr PRPOpCode.BeginObject; trivial 4; instr PRPOpCode.EndObject;
   container 0; container 1]
  ++ parentOfLeaf ++ [instr PRPOpCode.EndObject].

(** A scene whose second placeholder has a type id (99) that the catalog
    does not know. *)
Definition sceneMissing : gmap ptr SceneObject :=
  <[1%N := placeholder 16]> (<[2%N := placeholder 99]> ∅).

(** The controllers container is a [NamedContainer]. *)
Definition namedGate : list PRPInstruction :=
  [instr PRPOpCode.BeginObject; trivial 7; instr PRPOpCode.EndObject;
   namedContainer 0; container 0].

(** A [String] instruction stands where the controllers container should. *)
Definition stringGate : list PRPInstruction :=
  [instr PRPOpCode.BeginObject; trivial 7; instr PRPOpCode.EndObject;
   text "ZTimer"; container 0].

(** One [ZTimer] controller followed by [surplus] and its [EndObject]. *)
Definition timer (field : Z) (surplus : list PRPInstruction) : list PRPInstruction :=
  [text "ZTimer"; instr PRPOpCode.BeginObject; trivial field]
  ++ surplus ++ [instr PRPOpCode.EndObject].

(** An object with one controller that has one surplus instruction. *)
Definition oneSurplus : list PRPInstruction :=
  [instr PRPOpCode.BeginObject; trivial 7; instr PRPOpCode.EndObject; container 1]
  ++ timer 1 [trivial 2] ++ [container 0].

(** An object with one controller that has two surplus instructions. *)
Definition twoSurplus : list PRPInstruction :=
  [instr PRPOpCode.BeginObject; trivial 7; instr PRPOpCode.EndObject; container 1]
  ++ timer 1 [trivial 2; trivial 3] ++ [container 0].

(** The same controller, and one more instruction after the object. *)
Definition twoSurplusThenMore : list PRPInstruction :=
  twoSurplus ++ [instr PRPOpCode.EndObject].

(** An object whose only controller names a primitive type. *)
Definition primitiveController : list PRPInstruction :=
  [instr PRPOpCode.BeginObject; trivial 7; instr PRPOpCode.EndObject; container 1;
   text "Int32"; instr PRPOpCode.BeginObject; trivial 1; instr PRPOpCode.EndObject;
   container 0].

(** An object whose second controller names an unknown type. *)
Definition unknownController : list PRPInstruction :=
  [instr PRPOpCode.BeginObject; trivial 7; instr PRPOpCode.EndObject; container 2]
  ++ timer 1 []
  ++ [text "ZGhost"; instr PRPOpCode.BeginObject; trivial 1; instr PRPOpCode.EndObject;
      container 0].

(** The scene an outcome leaves behind. *)
Definition sceneOf (out : Outcome) : gmap ptr SceneObject :=
  match out with
  | Returned scene => scene
  | Raised _ scene => scene
  end.

(** The instruction list retained by the controller [name] of the object
    at [o]. *)
Definition retained (scene : gmap ptr SceneObject) (o : ptr) (name : string)
  : option (list PRPInstruction) :=
  match scene !! o with
  | Some obj => getInstructions <$> getControllers obj !! name
  | None => None
  end.

(** The back-reference of the object at [o]. *)
Definition parentOf (scene : gmap ptr SceneObject) (o : ptr) : option ptr :=
  match scene !! o with
  | Some obj => getParent obj
  | None => None
  end.

(** Whether the object at [o] has been given its properties. *)
Definition isFilled (scene : gmap ptr SceneObject) (o : ptr) : bool :=
  match scene !! o with
  | Some obj => bool_decide (is_Some (getProperties obj))
  | None => false
  end.

(** The loader over the sample catalog. *)
Definition decode : list ptr -> list PRPInstruction -> gmap ptr SceneObject -> Outcome :=
  load byHash byShortName.

Definition registry1 : TypeRegistry.t :=
  TypeRegistry.mk [(1%N, ZGEOM)] ∅ {[ "ZGEOM" := 1%N ]}.

End Sample.

(** ** Observations on outcomes *)

(** The object index an exception of the loader carries, if any. *)
Definition exceptionIndex (e : Exception) : option Z :=
  match e with
  | SceneObjectVisitorException idx _ => Some idx
  | SceneObjectTypeNotFoundException idx _ => Some idx
  | OutOfRange => None
  | InvalidPointer => None
  | FormatError => None
  end.

(** What the loader has no business changing in a scene object: its type id
    and its list of children. *)
Definition skeleton (o : SceneObject) : N * list ptr :=
  (getTypeId o, getChildren o).

(** The world a computation ends in, returned or thrown. *)
Definition worldOf {A} (r : Result A) : Machine :=
  match r with
  | Ok _ m => m
  | Throw _ m => m
  end.

(** The scene [load] ends with, returned or raised. *)
Definition sceneAfter (out : Outcome) : gmap ptr SceneObject :=
  match out with
  | Returned scene => scene
  | Raised _ scene => scene
  end.

(** ** The registry's bookkeeping *)

(** The name index and the owned descriptors agree: every owned descriptor
    is indexed under its name at its own address, every index entry points
    to an owned descriptor of that name, and no two owned descriptors share
    a name. *)
Definition indexConsistent (self : TypeRegistry.t) : Prop :=
  (forall p ty, (p, ty) ∈ TypeRegistry.m_types self ->
                TypeRegistry.m_typesByName self !! getName ty = Some p)
  /\ (forall name p, TypeRegistry.m_typesByName self !! name = Some p ->
                     exists ty, (p, ty) ∈ TypeRegistry.m_types self
                                /\ getName ty = name)
  /\ NoDup ((fun d => getName (snd d)) <$> TypeRegistry.m_types self).

(** ** The table model of the geometry chunks *)

Module ScenePrimitivesModel.

(** The members of [gamelib::prm::PRMChunkRecognizedKind] and
    [PRMVertexBufferFormat] that [data] tells apart. *)
Inductive PRMChunkRecognizedKind : Set :=
| CRK_UNKNOWN_BUFFER
| CRK_VERTEX_BUFFER
| CRK_INDEX_BUFFER
| CRK_DESCRIPTION_BUFFER
| CRK_ZERO_CHUNK.

Inductive PRMVertexBufferFormat : Set :=
| VBF_VERTEX_10
| VBF_VERTEX_24
| VBF_VERTEX_28
| VBF_VERTEX_34
| VBF_UNKNOWN_VERTEX.

#[global] Instance kind_eq_dec : EqDecision PRMChunkRecognizedKind.
Proof. solve_decision. Defined.

(** A chunk as [data] reads it: [getIndex()], [getKind()],
    [getBuffer().size()], and the two header pointers, [None] for null;
    of the vertex header only [vertexFormat] is read, of the index header
    only [indicesCount]. *)
Record PRMChunk : Set := mkChunk {
  getIndex : Z;
  getKind : PRMChunkRecognizedKind;
  getBufferSize : Z;
  getVertexBufferHeader : option PRMVertexBufferFormat;
  getIndexBufferHeader : option Z
}.

(** [gamelib::Level], of which the model reads
    [getLevelGeometry()->chunks]. *)
Record Level : Set := mkLevel { chunks : list PRMChunk }.

(** What a [QVariant] returned by the model holds. *)
Inductive QVariant : Set :=
| QInvalid
| QInt (z : Z)
| QString (s : string)
| QKind (k : PRMChunkRecognizedKind)
| QFormat (f : PRMVertexBufferFormat).

Record QModelIndex : Set := mkIndex { row : Z; column : Z }.

Inductive Orientation : Set := Horizontal | Vertical.

(** The values of [ColumnID] and of the item roles, which are declared in
    headers outside the sources at hand. *)
Record Constants : Set := mkConstants {
  CID_INDEX : Z;
  CID_KIND : Z;
  CID_SIZE : Z;
  CID_INDICES : Z;
  CID_VERTICES : Z;
  CID_MAX_COLUMNS : Z;
  DisplayRole : Z;
  kChunkKindRole : Z;
  kChunkIndexRole : Z;
  kChunkVertexFormatRole : Z
}.

Inductive Signal : Set := BeginResetModel | EndResetModel.

(** The model: the level it shows (null or a level) and the reset signals
    it has announced so far. *)
Record t : Set := mkModel {
  m_level : option Level;
  signals : list Signal
}.

(** What a call of [data] ends in: a variant, the [std::out_of_range] of
    [chunks.at], or the dereference of a null header. *)
Inductive DataResult : Set :=
| Variant (q : QVariant)
| VectorOutOfRange
| NullHeader.

(** [static_cast<int>] of a size. *)
Definition static_cast_int (z : Z) : Z := ((z + 2 ^ 31) mod 2 ^ 32 - 2 ^ 31)%Z.

Definition rowCount (self : t) : Z :=
  match m_level self with
  | None => 0%Z
  | Some level => static_cast_int (Z.of_nat (length (chunks level)))
  end.

Definition columnCount (K : Constants) (self : t) : Z := CID_MAX_COLUMNS K.

Definition getKindAsQString (kind : PRMChunkRecognizedKind) : string :=
  match kind with
  | CRK_UNKNOWN_BUFFER => "UNKNOWN BUFFER"
  | CRK_VERTEX_BUFFER => "VERTEX BUFFER"
  | CRK_INDEX_BUFFER => "INDEX BUFFER"
  | CRK_DESCRIPTION_BUFFER => "DESCRIPTION BUFFER"
  | CRK_ZERO_CHUNK => "<ZERO CHUNK>"
  end.

Definition getVertexFormatAsQString (bufferFormat : PRMVertexBufferFormat) : string :=
  match bufferFormat with
  | VBF_VERTEX_10 => "Vertex Format 10"
  | VBF_VERTEX_24 => "Vertex Format 24"
  | VBF_VERTEX_28 => "Vertex Format 28"
  | VBF_VERTEX_34 => "Vertex Format 34"
  | VBF_UNKNOWN_VERTEX => "UNKNOWN FORMAT"
  end.

(** [chunks.at(row)]: the row becomes a [size_t], so a negative row is out
    of range like one past the end. *)
Definition at_ (l : list PRMChunk) (i : Z) : option PRMChunk :=
  if (0 <=? i)%Z then l !! Z.to_nat i else None.

(** The [switch] on the column under [Qt::DisplayRole]. *)
Definition display (K : Constants) (chk : PRMChunk) (col : Z) : DataResult :=
  if (col =? CID_INDEX K)%Z then Variant (QInt (getIndex chk))
  else if (col =? CID_KIND K)%Z then
    Variant (QString (getKindAsQString (getKind chk)))
  else if (col =? CID_SIZE K)%Z then Variant (QInt (getBufferSize chk))
  else if (col =? CID_VERTICES K)%Z then
    if bool_decide (getKind chk = CRK_VERTEX_BUFFER) then
      match getVertexBufferHeader chk with
      | Some vertexFormat => Variant (QString (getVertexFormatAsQString vertexFormat))
      | None => NullHeader
      end
    else Variant (QString "N/A")
  else if (col =? CID_INDICES K)%Z then
    if bool_decide (getKind chk = CRK_INDEX_BUFFER) then
      match getIndexBufferHeader chk with
      | Some indicesCount => Variant (QInt indicesCount)
      | None => NullHeader
      end
    else Variant (QString "N/A")
  else Variant QInvalid.

(** [ScenePrimitivesModel::data]. *)
Definition data (K : Constants) (self : t) (index : QModelIndex) (role : Z)
  : DataResult :=
  match m_level self with
  | None => Variant QInvalid
  | Some level =>
      match at_ (chunks level) (row index) with
      | None => VectorOutOfRange
      | Some chk =>
          if (role =? DisplayRole K)%Z then display K chk (column index)
          else if (role =? kChunkKindRole K)%Z then Variant (QKind (getKind chk))
          else if (role =? kChunkIndexRole K)%Z then Variant (QInt (getIndex chk))
          else if (role =? kChunkVertexFormatRole K)%Z then
            match getVertexBufferHeader chk with
            | Some vertexFormat => Variant (QFormat vertexFormat)
            | None => Variant QInvalid
            end
          else Variant QInvalid
      end
  end.

(** [ScenePrimitivesModel::setData]: the answer and the model afterwards. *)
Definition setData (self : t) (index : QModelIndex) (value : QVariant) (role : Z)
  : bool * t := (false, self).

(** [ScenePrimitivesModel::headerData]. *)
Definition headerData (K : Constants) (self : t) (section : Z)
    (orientation : Orientation) (role : Z) : QVariant :=
  if (role =? DisplayRole K)%Z
     && match orientation with Horizontal => true | Vertical => false end
  then
    if (section =? CID_INDEX K)%Z then QString "Index"
    else if (section =? CID_KIND K)%Z then QString "Kind (chunk)"
    else if (section =? CID_SIZE K)%Z then QString "Size (chunk)"
    else if (section =? CID_INDICES K)%Z then QString "Indices"
    else if (section =? CID_VERTICES K)%Z then QString "Vertices"
    else QInvalid
  else QInvalid.

(** [ScenePrimitivesModel::setLevel]: a null level is ignored. *)
Definition setLevel (level : option Level) (self : t) : t :=
  match level with
  | Some l =>
      {| m_level := Some l;
         signals := signals self ++ [BeginResetModel; EndResetModel] |}
  | None => self
  end.

(** [ScenePrimitivesModel::resetLevel]. *)
Definition resetLevel (self : t) : t :=
  {| m_level := None;
     signals := signals self ++ [BeginResetModel; EndResetModel] |}.

(** Every vertex-buffer chunk has its vertex header and every index-buffer
    chunk its index header. *)
Definition headersPresent (chk : PRMChunk) : Prop :=
  (getKind chk = CRK_VERTEX_BUFFER -> is_Some (getVertexBufferHeader chk))
  /\ (getKind chk = CRK_INDEX_BUFFER -> is_Some (getIndexBufferHeader chk)).

(** Sample constants and a sample level. *)
Definition sampleConstants : Constants :=
  mkConstants 0 1 2 3 4 5 0 257 258 259.

Definition sampleLevel : Level :=
  mkLevel [mkChunk 0 CRK_VERTEX_BUFFER 480 (Some VBF_VERTEX_24) None;
           mkChunk 1 CRK_INDEX_BUFFER 96 None (Some 48%Z);
           mkChunk 2 CRK_ZERO_CHUNK 0 None None].

End ScenePrimitivesModel.

(** ** More sample inputs *)

Module MoreSamples.

(** The world [load] starts the root visit in. *)
Definition start (scene : gmap ptr SceneObject) : Machine :=
  mkMachine (mkContext 0) scene.

(** A descriptor whose [verify] accepts every window and whose [map] never
    yields a value, and the catalog that knows only it. *)
Definition Broken : Type_ :=
  mkType "Broken" TypeKind.COMPLEX (fun ip => (true, ip)) (fun ip => (None, ip)) false.

Definition brokenByHash (h : N) : option Type_ := Some Broken.

(** A name index in which every name is [ZGEOM], a complex type that does
    not tolerate trailing instructions. *)
Definition strictByName (name : string) : option Type_ := Some Sample.ZGEOM.

(** An object whose properties are a [String] where the descriptor expects
    a [Trivial]. *)
Definition notVerified : list PRPInstruction :=
  [Sample.instr PRPOpCode.BeginObject; Sample.text "x";
   Sample.instr PRPOpCode.EndObject; Sample.container 0; Sample.container 0].

(** The well-formed leaf object followed by two more instructions. *)
Definition leafThenMore : list PRPInstruction :=
  Sample.leaf ++ [Sample.trivial 9; Sample.instr PRPOpCode.BeginObject].

(** A controller with a surplus instruction before its [EndObject]. *)
Definition surplusController : list PRPInstruction :=
  [Sample.text "ZTimer"; Sample.instr PRPOpCode.BeginObject; Sample.trivial 1;
   Sample.trivial 2; Sample.instr PRPOpCode.EndObject].

(** A controller with surplus instructions and no [EndObject] at all. *)
Definition endlessController : list PRPInstruction :=
  [Sample.text "ZTimer"; Sample.instr PRPOpCode.BeginObject; Sample.trivial 1;
   Sample.trivial 2; Sample.trivial 3].

(** A root with two children, both well-formed leaves, each followed by
    its trailing [EndObject]. *)
Definition twoChildren : list PRPInstruction :=
  [Sample.instr PRPOpCode.BeginObject; Sample.trivial 5;
   Sample.instr PRPOpCode.EndObject; Sample.container 0; Sample.container 2]
  ++ Sample.leaf ++ [Sample.instr PRPOpCode.EndObject]
  ++ Sample.leaf ++ [Sample.instr PRPOpCode.EndObject].

(** Three placeholders; the third has a type id (99) that the catalog does
    not know. *)
Definition sceneThirdMissing : gmap ptr SceneObject :=
  <[1%N := Sample.placeholder 16]>
    (<[2%N := Sample.placeholder 16]> (<[3%N := Sample.placeholder 99]> ∅)).

(** A model showing the sample level. *)
Definition shown : ScenePrimitivesModel.t :=
  ScenePrimitivesModel.mkModel (Some ScenePrimitivesModel.sampleLevel) [].

End MoreSamples.

(** * Properties *)

(** ** Spans *)

Lemma slice_tail {T} (x : T) (l : list T) :
Span.slice (x :: l) 1 (Span.size (x :: l) - 1) = l.
Proof.
unfold Span.slice, Span.size. cbn [length].
replace (Z.to_nat (Z.of_nat (S (length l)) - 1)) with (length l) by lia.
change (Z.to_nat 1) with 1%nat. cbn [drop].
apply firstn_all.
Qed.

Lemma slice_prefix {T} (l : list T) (n : Z) :
Span.slice l 0 n = take (Z.to_nat n) l.
Proof. reflexivity. Qed.

Lemma slice_suffix {T} (l : list T) (k : nat) :
(k <= length l)%nat ->
Span.slice l (Z.of_nat k) (Span.size l - Z.of_nat k) = drop k l.
Proof.
intros Hk. unfold Span.slice, Span.size.
rewrite Nat2Z.id.
apply take_ge. rewrite length_drop. lia.
Qed.

(** ** C8: the sentinel parent of a GMS entity *)

(** C8. [isInheritedOfGeom] is false exactly when the parent geom index is
  the sentinel [0xFFFFFFEE] and true for every other index, and a freshly
  constructed entity has the sentinel as its parent index. *)
Theorem isInheritedOfGeom_sentinel :
GMSGeomEntity.kInvalidParent = 4294967278%Z
/\ (forall e : GMSGeomEntity.t,
      GMSGeomEntity.isInheritedOfGeom e = false
      <-> GMSGeomEntity.getParentGeomIndex e = GMSGeomEntity.kInvalidParent)
/\ (forall e : GMSGeomEntity.t,
      GMSGeomEntity.isInheritedOfGeom e = true
      <-> GMSGeomEntity.getParentGeomIndex e <> GMSGeomEntity.kInvalidParent)
/\ (forall unk34 : Z,
      GMSGeomEntity.getParentGeomIndex (GMSGeomEntity.fresh unk34)
        = GMSGeomEntity.kInvalidParent
      /\ GMSGeomEntity.isInheritedOfGeom (GMSGeomEntity.fresh unk34) = false).
Proof.
split; [reflexivity|].
unfold GMSGeomEntity.isInheritedOfGeom, GMSGeomEntity.getParentGeomIndex.
repeat split.
- intros H. apply negb_false_iff in H. by apply Z.eqb_eq in H.
- intros ->. by rewrite Z.eqb_refl.
- intros H. apply negb_true_iff in H. by apply Z.eqb_neq in H.
- intros H. apply negb_true_iff. by apply Z.eqb_neq.
Qed.

(** ** C9: registering a type *)

(** C9. [registerType] with a name already in the name index returns null
  and leaves the registry as it was (owned descriptors and both indices),
  the caller still owning the rejected descriptor; with a fresh name the
  descriptor is appended to the owned ones, the name index points to it,
  the hash index is unchanged, and its pointer is returned. *)
Theorem registerType_first_wins (self : TypeRegistry.t) (p : ptr) (ty : Type_) :
(is_Some (TypeRegistry.m_typesByName self !! getName ty) ->
 TypeRegistry.registerType (Some (p, ty)) self = (None, self, Some (p, ty)))
/\ (TypeRegistry.m_typesByName self !! getName ty = None ->
    TypeRegistry.registerType (Some (p, ty)) self
    = (Some p,
       {| TypeRegistry.m_types := TypeRegistry.m_types self ++ [(p, ty)];
          TypeRegistry.m_typesByHash := TypeRegistry.m_typesByHash self;
          TypeRegistry.m_typesByName :=
            <[getName ty := p]> (TypeRegistry.m_typesByName self) |},
       None)).
Proof.
destruct self as [types byHash byName]. cbn.
unfold TypeRegistry.registerType, TypeRegistry.try_emplace. cbn.
split.
- intros [q Hq]. by rewrite Hq.
- intros Hnone. by rewrite Hnone.
Qed.

Lemma registerType_first_wins_witness :
TypeRegistry.registerType (Some (2%N, Sample.ZGEOM)) Sample.registry1
  = (None, Sample.registry1, Some (2%N, Sample.ZGEOM))
/\ fst (fst (TypeRegistry.registerType (Some (2%N, Sample.ZLIGHT)) Sample.registry1))
   = Some 2%N.
Proof.
split.
- apply (proj1 (registerType_first_wins Sample.registry1 2%N Sample.ZGEOM)).
  exists 1%N. reflexivity.
- rewrite (proj2 (registerType_first_wins Sample.registry1 2%N Sample.ZLIGHT)).
  + reflexivity.
  + reflexivity.
Defined.


(** ** The loader *)

Section LoaderFacts.

Variable byHash : N -> option Type_.
Variable byName : string -> option Type_.

(** *** Sequencing *)

Ltac opcodes :=
  repeat first
    [ rewrite bool_decide_eq_true_2 by done
    | rewrite bool_decide_eq_false_2 by done ];
  cbn [negb andb orb].

Lemma bind_Ok {A B} (c : Decode A) (k : A -> Decode B) m a m' :
  c m = Ok a m' -> bind c k m = k a m'.
Proof. unfold bind. by intros ->. Qed.

Lemma bind_Throw {A B} (c : Decode A) (k : A -> Decode B) m e m' :
  c m = Throw e m' -> bind c k m = Throw e m'.
Proof. unfold bind. by intros ->. Qed.

Lemma bind_Ok_inv {A B} (c : Decode A) (k : A -> Decode B) m b m'' :
  bind c k m = Ok b m'' -> exists a m', c m = Ok a m' /\ k a m' = Ok b m''.
Proof. unfold bind. destruct (c m) as [a m'|e m']; [eauto | discriminate]. Qed.

Lemma bind_Throw_inv {A B} (c : Decode A) (k : A -> Decode B) m e m'' :
  bind c k m = Throw e m'' ->
  c m = Throw e m'' \/ exists a m', c m = Ok a m' /\ k a m' = Throw e m''.
Proof. unfold bind. destruct (c m) as [a m'|e' m']; [eauto | intros [= -> ->]; auto]. Qed.

Lemma at0_cons {T} (x : T) (l : list T) m : at0 (x :: l) m = Ok x m.
Proof. reflexivity. Qed.

Lemma at0_nil {T} m : at0 (@nil T) m = Throw OutOfRange m.
Proof. reflexivity. Qed.

(** *** Stage 1 *)

Lemma readProperties_ok currentObject obj ty i ip v e rest m :
  isBegin i = true ->
  heap m !! currentObject = Some obj ->
  byHash (getTypeId obj) = Some ty ->
  fst (verify ty ip) = true ->
  map ty ip = (Some v, e :: rest) ->
  isEndObject e = true ->
  readProperties byHash currentObject (i :: ip) m = Ok (v, rest) m.
Proof.
  intros Hi Hobj Hty Hver Hmap He.
  unfold readProperties. rewrite (bind_Ok _ _ _ _ _ (at0_cons _ _ _)).
  rewrite Hi. cbn [negb Span.next tail].
  erewrite bind_Ok; last by (unfold readTypeId; rewrite Hobj).
  rewrite Hty. destruct (verify ty ip) as [vRes ip'] eqn:Hv. cbn in Hver. subst vRes.
  cbn [negb]. rewrite Hmap.
  rewrite (bind_Ok _ _ _ _ _ (at0_cons _ _ _)). by rewrite He.
Qed.

(** *** Stage 2 without controllers *)

Lemma readControllers_none i rest m :
  getOpCode i = PRPOpCode.Container ->
  (trivial_i32 (getOperand i) <= 0)%Z ->
  readControllers byName (i :: rest) m = Ok (∅, rest) m.
Proof.
  intros Hop Hcount. unfold readControllers.
  rewrite (bind_Ok _ _ _ _ _ (at0_cons _ _ _)). rewrite Hop. cbn.
  replace (Z.to_nat (trivial_i32 (getOperand i))) with 0%nat by lia.
  reflexivity.
Qed.

(** *** What each stage can return and throw *)

Ltac run_stage :=
  unfold bind, at0, Span.at0, ret, throw, throwVisitor, throwTypeNotFound,
    readTypeId in *;
  repeat case_match; simplify_eq/=.

Lemma readProperties_Ok_inv cur ip v ip' m m' :
  readProperties byHash cur ip m = Ok (v, ip') m' ->
  m' = m /\ exists i rest, ip = i :: rest /\ isBegin i = true.
Proof.
  unfold readProperties. intros H. run_stage.
  destruct ip as [|i rest]; simplify_eq/=.
  split; [done|]. eexists _, _. split; [done|].
  by apply negb_false_iff.
Qed.

Lemma readProperties_Throw_inv cur ip e m m' :
  readProperties byHash cur ip m = Throw e m' ->
  m' = m /\ typeNotFoundAt byHash byName m cur e.
Proof.
  unfold readProperties. intros H. run_stage; split; try done.
  split; [done|]. eauto.
Qed.

Lemma extractUnexposed_inv name ip controllers m :
  (exists r, extractUnexposed name ip controllers m = Ok r m)
  \/ (exists msg, extractUnexposed name ip controllers m
                  = Throw (SceneObjectVisitorException (objectIdx (ctx m)) msg) m).
Proof.
  unfold extractUnexposed. destruct (findEndObject ip 0) as [end_ endOffset].
  destruct (Span.empty end_); [right | left]; eauto.
Qed.

Lemma readController_Ok_inv ip controllers r m m' :
  readController byName ip controllers m = Ok r m' -> m' = m.
Proof.
  unfold readController. intros H. run_stage; try done.
  all: match goal with
       | H : extractUnexposed ?n ?i ?c ?m = _ |- _ =>
           destruct (extractUnexposed_inv n i c m) as [[? Hx]|[? Hx]];
           rewrite Hx in H; by simplify_eq
       end.
Qed.

Lemma readController_Throw_inv cur ip controllers e m m' :
  readController byName ip controllers m = Throw e m' ->
  m' = m /\ typeNotFoundAt byHash byName m cur e.
Proof.
  unfold readController. intros H. run_stage; try done.
  all: match goal with
       | H : extractUnexposed ?n ?i ?c ?m = _ |- _ =>
           destruct (extractUnexposed_inv n i c m) as [[? Hx]|[? Hx]];
           rewrite Hx in H; by simplify_eq
       end.
Qed.

Lemma controllersLoop_Ok_inv n ip controllers r m m' :
  controllersLoop byName n ip controllers m = Ok r m' -> m' = m.
Proof.
  revert ip controllers m. induction n as [|n IH]; intros ip controllers m; cbn.
  - by intros [= _ ->].
  - intros H. apply bind_Ok_inv in H as ([ip1 c1] & m1 & H1 & H2).
    apply readController_Ok_inv in H1 as ->. by apply IH in H2.
Qed.

Lemma controllersLoop_Throw_inv cur n ip controllers e m m' :
  controllersLoop byName n ip controllers m = Throw e m' ->
  m' = m /\ typeNotFoundAt byHash byName m cur e.
Proof.
  revert ip controllers m. induction n as [|n IH]; intros ip controllers m; cbn.
  - discriminate.
  - intros H. apply bind_Throw_inv in H as [H | ([ip1 c1] & m1 & H1 & H2)].
    + by eapply readController_Throw_inv.
    + apply readController_Ok_inv in H1 as ->. by apply IH in H2.
Qed.

Lemma readControllers_Ok_inv ip r m m' :
  readControllers byName ip m = Ok r m' -> m' = m.
Proof.
  unfold readControllers. intros H.
  apply bind_Ok_inv in H as (i & m1 & H1 & H2).
  assert (m1 = m) as -> by (unfold at0 in H1; run_stage; done).
  destruct (_ && _); [discriminate|].
  apply bind_Ok_inv in H2 as ([ip1 c1] & m2 & H2 & H3).
  apply controllersLoop_Ok_inv in H2 as ->. by injection H3.
Qed.

Lemma readControllers_Throw_inv cur ip e m m' :
  readControllers byName ip m = Throw e m' ->
  m' = m /\ typeNotFoundAt byHash byName m cur e.
Proof.
  unfold readControllers. intros H.
  apply bind_Throw_inv in H as [H | (i & m1 & H1 & H2)].
  { run_stage; done. }
  assert (m1 = m) as -> by (run_stage; done).
  destruct (_ && _); [by injection H2 as <- <-|].
  apply bind_Throw_inv in H2 as [H2 | ([ip1 c1] & m2 & H2 & H3)].
  - by eapply controllersLoop_Throw_inv.
  - discriminate.
Qed.

(** *** Stage 3 and the recursion *)

Lemma visitImpl_eq objects parent cur instructions :
  visitImpl byHash byName objects parent cur instructions
  = (let* (properties, ip) := readProperties byHash cur instructions in
     let* (controllers, ip) := readControllers byName ip in
     update cur (setControllers controllers) ;;
     update cur (setProperties properties) ;;
     let* i := at0 ip in
     if negb (bool_decide (getOpCode i = PRPOpCode.Container))
        && negb (bool_decide (getOpCode i = PRPOpCode.NamedContainer)) then
       throwVisitor "Invalid controller definition (Expected Container with children geoms)"
     else
       visitChildren
         (fun ip => match objects with
                    | [] => throw OutOfRange
                    | child :: rest =>
                        visitImpl byHash byName rest (Some cur) child ip
                    end)
         parent cur (Z.to_nat (trivial_i32 (getOperand i))) (Span.next ip)).
Proof. by destruct objects. Qed.

(** A visit that returns was given a window that opens with
    [BeginObject]/[BeginNamedObject]. *)
Lemma visitImpl_Ok_head objects parent cur ip r m m' :
  visitImpl byHash byName objects parent cur ip m = Ok r m' ->
  exists i rest, ip = i :: rest /\ isBegin i = true.
Proof.
  rewrite visitImpl_eq. intros H.
  apply bind_Ok_inv in H as ([v ip1] & m1 & H1 & _).
  by apply readProperties_Ok_inv in H1 as [_ ?].
Qed.

Lemma isBegin_not_EndObject i : isBegin i = true -> isEndObject i = false.
Proof.
  unfold isBegin, isEndObject. intros H.
  apply orb_true_iff in H as [H|H]; apply bool_decide_eq_true in H;
    rewrite H; by apply bool_decide_eq_false.
Qed.

(** One turn of the children loop, for a child visit that only returns on a
    window opening an object: the loop either passes on what the child threw
    or, the child having returned, throws on the very instruction the child
    started from, since its own cursor never moved. *)
Lemma visitChildren_S_inv visitChild parent cur n ip m :
  (forall ip m r m', visitChild ip m = Ok r m' ->
                     exists i rest, ip = i :: rest /\ isBegin i = true) ->
  exists e m',
    visitChildren visitChild parent cur (S n) ip m = Throw e m'
    /\ (visitChild ip (enterChild parent cur m) = Throw e m'
        \/ (visitChild ip (enterChild parent cur m) = Ok tt m'
            /\ e = SceneObjectVisitorException (objectIdx (ctx m'))
                     "Invalid children definition (Expected EndObject)")).
Proof.
  intros Hhead. cbn [visitChildren].
  set (m1 := enterChild parent cur m).
  assert (forall (k : Decode unit),
            ((match parent with
              | Some p => update cur (setParent p)
              | None => ret tt
              end) ;; nextObject ;; k) m = k m1) as ->.
  { intros k. by destruct parent. }
  unfold bind at 1.
  destruct (visitChild ip m1) as [[] m2|e m2] eqn:Hc.
  - destruct (Hhead _ _ _ _ Hc) as (i & rest & -> & Hi).
    unfold bind, at0, ret; cbn. rewrite (isBegin_not_EndObject _ Hi). cbn.
    eexists _, _. split; [reflexivity|]. right. by split.
  - eexists _, _. split; [reflexivity|]. by left.
Qed.

Lemma visitChild_head objects cur ip m r m' :
  match objects with
  | [] => throw OutOfRange
  | child :: rest => visitImpl byHash byName rest (Some cur) child ip
  end m = Ok r m' ->
  exists i rest, ip = i :: rest /\ isBegin i = true.
Proof.
  destruct objects as [|child rest]; [discriminate|].
  apply visitImpl_Ok_head.
Qed.

(** *** The index and the hash carried by "type not found" *)

Lemma alter_typeId (f : SceneObject -> SceneObject) (a o : ptr)
    (h : gmap ptr SceneObject) obj' :
  (forall x, getTypeId (f x) = getTypeId x) ->
  alter f a h !! o = Some obj' ->
  exists obj, h !! o = Some obj /\ getTypeId obj = getTypeId obj'.
Proof.
  intros Hf. destruct (decide (a = o)) as [->|Hne].
  - rewrite lookup_alter_eq. destruct (h !! o) as [obj|]; [|discriminate].
    intros [= <-]. eauto.
  - rewrite lookup_alter_ne by done. eauto.
Qed.

Lemma enterChild_typeId parent cur m o obj' :
  heap (enterChild parent cur m) !! o = Some obj' ->
  exists obj, heap m !! o = Some obj /\ getTypeId obj = getTypeId obj'.
Proof.
  unfold enterChild. cbn [heap]. destruct parent as [p|]; [|eauto].
  by apply alter_typeId.
Qed.

Lemma advance_shift k z : advance k ((z + 1) mod 2 ^ 32) = advance (S k) z.
Proof. unfold advance. by rewrite Nat.iter_succ_r. Qed.

Lemma advance_0 k : advance k 0 = (Z.of_nat k mod 2 ^ 32)%Z.
Proof.
  induction k as [|k IH]; [reflexivity|].
  unfold advance in *. rewrite Nat.iter_succ, IH.
  rewrite Zplus_mod_idemp_l. f_equal. lia.
Qed.

(** How a visit ends. Either stage 1 or 2 throws, the world untouched; or
    they fill the object and then the visit returns (no child announced),
    or the gate of stage 3 throws, or the first turn of the children loop
    throws: what the child threw, or the loop's own exception once the
    child has returned. *)
Lemma visitImpl_cases objects parent cur ip m :
  (exists e, visitImpl byHash byName objects parent cur ip m = Throw e m
             /\ typeNotFoundAt byHash byName m cur e)
  \/ exists v c ip3,
          (visitImpl byHash byName objects parent cur ip m
             = Ok tt (fillObject cur v c m)
           \/ visitImpl byHash byName objects parent cur ip m
               = Throw OutOfRange (fillObject cur v c m)
           \/ visitImpl byHash byName objects parent cur ip m
               = Throw (SceneObjectVisitorException (objectIdx (ctx m))
                          "Invalid controller definition (Expected Container with children geoms)")
                       (fillObject cur v c m)
           \/ exists e m',
               visitImpl byHash byName objects parent cur ip m = Throw e m'
               /\ let visitChild :=
                    match objects with
                    | [] => throw OutOfRange
                    | child :: rest =>
                        visitImpl byHash byName rest (Some cur) child ip3
                    end in
                  let m2 := enterChild parent cur (fillObject cur v c m) in
                  visitChild m2 = Throw e m'
                  \/ (visitChild m2 = Ok tt m'
                      /\ e = SceneObjectVisitorException (objectIdx (ctx m'))
                               "Invalid children definition (Expected EndObject)")).
Proof.
  set (R := visitImpl byHash byName objects parent cur ip m).
  assert (R = visitImpl byHash byName objects parent cur ip m) as HR by done.
  clearbody R. rewrite visitImpl_eq in HR. revert HR. unfold bind at 1.
  destruct (readProperties byHash cur ip m) as [[v ip1] m1|e m1] eqn:H1.
  2:{ apply readProperties_Throw_inv in H1 as [-> H1]. intros ->. left. eauto. }
  apply readProperties_Ok_inv in H1 as [-> _]. unfold bind at 1.
  destruct (readControllers byName ip1 m) as [[c ip2] m2|e m2] eqn:H2.
  2:{ apply (readControllers_Throw_inv cur) in H2 as [-> H2]. intros ->. left. eauto. }
  apply readControllers_Ok_inv in H2 as ->.
  unfold update at 1 2. unfold bind at 1 2. cbn [ctx heap].
  fold (fillObject cur v c m).
  intros HR. right. exists v, c, (Span.next ip2). revert HR.
  destruct ip2 as [|i ip3]; [intros ->; right; left; reflexivity|].
  unfold bind at 1. rewrite at0_cons.
  destruct (_ && _); [intros ->; right; right; left; reflexivity|].
  destruct (Z.to_nat (trivial_i32 (getOperand i))) as [|n];
    [intros ->; left; reflexivity|].
  match goal with
  | |- context [visitChildren ?vc ?p ?c (S ?n) ?ip ?m] =>
      destruct (visitChildren_S_inv vc p c n ip m) as (e & m4 & Heq & Hcase);
      [ intros ? ? ? ?; apply (visitChild_head _ cur) | ]
  end.
  rewrite Heq. intros ->. right. right. right.
  exists e, m4. split; [done|]. by destruct objects.
Qed.

Lemma visitImpl_TypeNotFound objects :
  forall parent cur ip m idx missing m',
    visitImpl byHash byName objects parent cur ip m
      = Throw (SceneObjectTypeNotFoundException idx missing) m' ->
    exists (k : nat) (o : ptr),
      (cur :: objects) !! k = Some o
      /\ idx = advance k (objectIdx (ctx m))
      /\ match missing with
         | MissingHash h =>
             exists obj, heap m !! o = Some obj
                         /\ getTypeId obj = h /\ byHash h = None
         | MissingName name => byName name = None
         end.
Proof.
  induction objects as [|child rest IH]; intros parent cur ip m idx missing m' H.
  all: match type of H with
       | visitImpl _ _ ?objs _ _ _ _ = _ =>
           destruct (visitImpl_cases objs parent cur ip m)
             as [(e & He & Hat) | (v & c & ip3 & [He | [He | [He | Hloop]]])]
       end.
  all: try (rewrite H in He; try discriminate).
  1, 3: injection He as <- <-; destruct Hat as [-> Hat]; by exists 0%nat, cur.
  all: destruct Hloop as (e & m2 & He & [Hc | [_ Hc]]); rewrite H in He;
    injection He as <- <-; try discriminate.
  apply IH in Hc as (k & o & Hk & Hidx & Hmiss).
  exists (S k), o. split; [done|]. split.
  - rewrite Hidx. cbn [enterChild fillObject ctx objectIdx]. apply advance_shift.
  - destruct missing as [h|name]; [|done].
    destruct Hmiss as (obj' & Hobj' & Hh & Hnone).
    apply enterChild_typeId in Hobj' as (obj2 & Hobj2 & Hty2).
    unfold fillObject in Hobj2. cbn [heap] in Hobj2.
    apply alter_typeId in Hobj2 as (obj1 & Hobj1 & Hty1); [|done].
    apply alter_typeId in Hobj1 as (obj & Hobj & Hty); [|done].
    exists obj. split; [done|]. split; [congruence|done].
Qed.

(** *** Controllers *)

Lemma controllersLoop_split k n ip c m :
  controllersLoop byName (k + n) ip c m
  = (let* (ip', c') := controllersLoop byName k ip c in
     controllersLoop byName n ip' c') m.
Proof.
  revert ip c m. induction k as [|k IH]; intros ip c m; [reflexivity|].
  cbn [Nat.add controllersLoop]. unfold bind in *.
  destruct (readController byName ip c m) as [[ip1 c1] m1|e m1]; [|reflexivity].
  apply IH.
Qed.

(** An exception thrown while reading the [k]-th controller of an object
    ends the visit of that object. *)
Lemma visitImpl_controller_throw objects parent cur ip m k ipk ck e m' :
  reachesController byHash byName cur ip m k ipk ck ->
  readController byName ipk ck m = Throw e m' ->
  visitImpl byHash byName objects parent cur ip m = Throw e m'.
Proof.
  intros (v & g & ip1 & H1 & Hg & Hk & Hloop) He.
  rewrite visitImpl_eq. erewrite bind_Ok by exact H1. cbv beta iota.
  apply bind_Throw. unfold readControllers.
  rewrite (bind_Ok _ _ _ _ _ (at0_cons _ _ _)).
  rewrite (bool_decide_eq_false_2 _ Hg), andb_false_r.
  apply bind_Throw. cbn [Span.next tail].
  replace (Z.to_nat (trivial_i32 (getOperand g)))
    with (k + S (Z.to_nat (trivial_i32 (getOperand g)) - S k))%nat by lia.
  rewrite controllersLoop_split. erewrite bind_Ok by exact Hloop.
  cbv beta iota. cbn [controllersLoop]. by apply bind_Throw.
Qed.

Lemma readController_not_complex i0 i1 rest ty c m :
  getOpCode i0 = PRPOpCode.String ->
  isBegin i1 = true ->
  byName (str (getOperand i0)) = Some ty ->
  getKind ty <> TypeKind.COMPLEX ->
  readController byName (i0 :: i1 :: rest) c m = Throw FormatError m.
Proof.
  intros H0 H1 Hty Hkind. unfold readController.
  rewrite (bind_Ok _ _ _ _ _ (at0_cons _ _ _)), H0. opcodes.
  cbn [Span.next tail]. rewrite (bind_Ok _ _ _ _ _ (at0_cons _ _ _)), H1.
  cbn [negb]. rewrite Hty. by rewrite (bool_decide_eq_false_2 _ Hkind).
Qed.

Lemma readController_missing i0 i1 rest c m :
  getOpCode i0 = PRPOpCode.String ->
  isBegin i1 = true ->
  byName (str (getOperand i0)) = None ->
  readController byName (i0 :: i1 :: rest) c m
  = Throw (SceneObjectTypeNotFoundException (objectIdx (ctx m))
             (MissingName (str (getOperand i0)))) m.
Proof.
  intros H0 H1 Hty. unfold readController.
  rewrite (bind_Ok _ _ _ _ _ (at0_cons _ _ _)), H0. opcodes.
  cbn [Span.next tail]. rewrite (bind_Ok _ _ _ _ _ (at0_cons _ _ _)), H1.
  cbn [negb]. by rewrite Hty.
Qed.

Lemma visitImpl_type_missing objects parent cur obj i ip m :
  isBegin i = true ->
  heap m !! cur = Some obj ->
  byHash (getTypeId obj) = None ->
  visitImpl byHash byName objects parent cur (i :: ip) m
  = Throw (SceneObjectTypeNotFoundException (objectIdx (ctx m))
             (MissingHash (getTypeId obj))) m.
Proof.
  intros Hi Hobj Hty. rewrite visitImpl_eq. apply bind_Throw.
  unfold readProperties. rewrite (bind_Ok _ _ _ _ _ (at0_cons _ _ _)), Hi.
  cbn [negb]. erewrite bind_Ok; last by (unfold readTypeId; rewrite Hobj).
  by rewrite Hty.
Qed.

Lemma load_TypeNotFound objects instructions scene idx missing scene' :
  load byHash byName objects instructions scene
    = Raised (SceneObjectTypeNotFoundException idx missing) scene' ->
  exists (k : nat) (o : ptr),
    objects !! k = Some o
    /\ idx = (Z.of_nat k mod 2 ^ 32)%Z
    /\ match missing with
       | MissingHash h =>
           exists obj, scene !! o = Some obj
                       /\ getTypeId obj = h /\ byHash h = None
       | MissingName name => byName name = None
       end.
Proof.
  unfold load. destruct (_ || _); [discriminate|].
  destruct objects as [|root rest]; [discriminate|].
  destruct (visitImpl _ _ _ _ _ _ _) as [r m|e m] eqn:Hv; [discriminate|].
  intros [= -> <-].
  apply visitImpl_TypeNotFound in Hv as (k & o & Hk & Hidx & Hmiss).
  exists k, o. split; [done|]. split; [|done].
  rewrite Hidx. apply advance_0.
Qed.

(** *** The gate of stage 2 *)

(** The gate throws on [NamedContainer] and lets every other opcode
    through, reading the controller count from its operand. *)
Lemma readControllers_gate i rest m :
  (getOpCode i = PRPOpCode.NamedContainer ->
   readControllers byName (i :: rest) m
   = Throw (SceneObjectVisitorException (objectIdx (ctx m))
              "Invalid object definition (Expected Container/NamedContainer)") m)
  /\ (getOpCode i <> PRPOpCode.NamedContainer ->
      readControllers byName (i :: rest) m
      = (let* (ip, controllers) :=
           controllersLoop byName (Z.to_nat (trivial_i32 (getOperand i))) rest ∅ in
         ret (controllers, ip)) m).
Proof.
  unfold readControllers. rewrite (bind_Ok _ _ _ _ _ (at0_cons _ _ _)).
  split; intros H.
  - rewrite H. by opcodes.
  - by rewrite (bool_decide_eq_false_2 _ H), andb_false_r.
Qed.

(** *** The unexposed tail *)

Lemma findEndObject_found pre e post k :
  Forall (fun i => isEndObject i = false) pre ->
  isEndObject e = true ->
  findEndObject (pre ++ e :: post) k = (e :: post, (k + Z.of_nat (length pre))%Z).
Proof.
  intros Hpre He. revert k.
  induction Hpre as [|i pre Hi _ IH]; intros k; cbn [app findEndObject length].
  - rewrite He. f_equal. lia.
  - rewrite Hi, IH. f_equal. lia.
Qed.

(** With [pre] free of [EndObject], the scan stops on [e] and the cursor is
    moved there; what is appended to the controller is the first
    [length post + 1] instructions of the window, not [pre]. *)
Lemma extractUnexposed_found name pre e post c m :
  Forall (fun i => isEndObject i = false) pre ->
  isEndObject e = true ->
  extractUnexposed name (pre ++ e :: post) c m
  = Ok (e :: post,
        alter (appendInstructions (take (S (length post)) (pre ++ e :: post)))
          name c) m.
Proof.
  intros Hpre He. unfold extractUnexposed.
  rewrite (findEndObject_found _ _ _ _ Hpre He). cbn [Span.empty].
  unfold ret. f_equal. f_equal.
  - rewrite Z.add_0_l, slice_suffix by (rewrite length_app; lia).
    by rewrite drop_app_length.
  - f_equal. f_equal. rewrite slice_prefix. f_equal.
    unfold Span.size. rewrite length_app. cbn [length]. lia.
Qed.

(** *** Visits that return *)

(** A visit that returns has written the properties and the controllers of
    its own object and nothing else: no child was visited, the object index
    did not move, no back-reference was stored. *)
Lemma visitImpl_Ok_leaf objects parent cur ip r m m' :
  visitImpl byHash byName objects parent cur ip m = Ok r m' ->
  exists v c, m' = fillObject cur v c m.
Proof.
  intros H.
  destruct (visitImpl_cases objects parent cur ip m)
    as [(e & He & _) | (v & c & ip3 & [He | [He | [He | (e & m2 & He & _)]]])];
    rewrite H in He; try discriminate.
  injection He as ->. eauto.
Qed.

Lemma visitImpl_Ok_parent objects parent cur ip r m m' o :
  visitImpl byHash byName objects parent cur ip m = Ok r m' ->
  getParent <$> heap m' !! o = getParent <$> heap m !! o.
Proof.
  intros H. apply visitImpl_Ok_leaf in H as (v & c & ->).
  unfold fillObject. cbn [heap].
  destruct (decide (cur = o)) as [->|Hne].
  - rewrite !lookup_alter_eq. by destruct (heap m !! o).
  - by rewrite !lookup_alter_ne.
Qed.

(** An object whose children container announces a child is never decoded
    to the end: whatever follows in the stream, the visit throws. *)
Lemma visitImpl_with_children_throws objects parent cur ip m v ip1 c g ip3 :
  readProperties byHash cur ip m = Ok (v, ip1) m ->
  readControllers byName ip1 m = Ok (c, g :: ip3) m ->
  (0 < trivial_i32 (getOperand g))%Z ->
  exists e m', visitImpl byHash byName objects parent cur ip m = Throw e m'.
Proof.
  intros H1 H2 Hpos. rewrite visitImpl_eq.
  erewrite bind_Ok by exact H1. cbv beta iota.
  erewrite bind_Ok by exact H2. cbv beta iota.
  unfold update at 1 2. unfold bind at 1 2. cbn [ctx heap].
  unfold bind at 1. rewrite at0_cons.
  destruct (_ && _); [by eexists _, _|].
  destruct (Z.to_nat (trivial_i32 (getOperand g))) as [|n] eqn:Hn; [lia|].
  match goal with
  | |- context [visitChildren ?vc ?p ?c (S ?n) ?ip ?m] =>
      destruct (visitChildren_S_inv vc p c n ip m) as (e & m4 & Heq & _);
      [ intros ? ? ? ?; apply (visitChild_head _ cur) | ]
  end.
  by exists e, m4.
Qed.

(** *** Controllers that are not complex *)

(** When the decode of an object reaches a controller whose name resolves,
    by short name, to a registered type that is not [COMPLEX], the visit of
    the object ends before the controller is mapped (the descriptor's [map]
    is arbitrary here and the world is the one before the controller), but
    with the format error of the message, not with a visitor exception. *)
Lemma not_complex_controller_throws (objects : list ptr) (parent : option ptr)
    (cur : ptr) (ip : list PRPInstruction) (m : Machine) (k : nat)
    (i0 i1 : PRPInstruction) (rest : list PRPInstruction)
    (controllers : gmap string Value) (ty : Type_) :
  reachesController byHash byName cur ip m k (i0 :: i1 :: rest) controllers ->
  getOpCode i0 = PRPOpCode.String ->
  isBegin i1 = true ->
  byName (str (getOperand i0)) = Some ty ->
  getKind ty <> TypeKind.COMPLEX ->
  visitImpl byHash byName objects parent cur ip m = Throw FormatError m.
Proof.
  intros Hreach H0 H1 Hty Hkind.
  eapply visitImpl_controller_throw; [exact Hreach|].
  by eapply readController_not_complex.
Qed.

(** *** Types that the catalog does not know *)

(** What the loader keeps of "type not found", for the objects and
    controllers its decode reaches. (1) Visiting an object whose type id has no entry in the hash index
    throws "type not found" with the current object index and that type id,
    in whatever world the visit starts. (2) Reaching a controller whose name
    has no entry in the name index throws "type not found" with the current
    object index and that name. (3) Whenever [load] ends with "type not
    found", the index it carries is the position, in the placeholder list,
    of an object (modulo [2 ^ 32], the width of the counter); a carried
    hash is the type id of that object and is absent from the hash index,
    and a carried name is absent from the name index. *)
Lemma type_not_found_carries_index :
  (forall objects parent cur obj i ip m,
     isBegin i = true ->
     heap m !! cur = Some obj ->
     byHash (getTypeId obj) = None ->
     visitImpl byHash byName objects parent cur (i :: ip) m
     = Throw (SceneObjectTypeNotFoundException (objectIdx (ctx m))
                (MissingHash (getTypeId obj))) m)
  /\ (forall objects parent cur ip m k i0 i1 rest controllers,
       reachesController byHash byName cur ip m k (i0 :: i1 :: rest) controllers ->
       getOpCode i0 = PRPOpCode.String ->
       isBegin i1 = true ->
       byName (str (getOperand i0)) = None ->
       visitImpl byHash byName objects parent cur ip m
       = Throw (SceneObjectTypeNotFoundException (objectIdx (ctx m))
                  (MissingName (str (getOperand i0)))) m)
  /\ (forall objects instructions scene idx missing scene',
       load byHash byName objects instructions scene
         = Raised (SceneObjectTypeNotFoundException idx missing) scene' ->
       exists (k : nat) (o : ptr),
         objects !! k = Some o
         /\ idx = (Z.of_nat k mod 2 ^ 32)%Z
         /\ match missing with
            | MissingHash h =>
                exists obj, scene !! o = Some obj
                            /\ getTypeId obj = h /\ byHash h = None
            | MissingName name => byName name = None
            end).
Proof.
  split; [|split].
  - intros. by apply visitImpl_type_missing.
  - intros objects parent cur ip m k i0 i1 rest controllers Hreach H0 H1 Hty.
    eapply visitImpl_controller_throw; [exact Hreach|].
    by apply readController_missing.
  - apply load_TypeNotFound.
Qed.

(** ** C10: empty inputs *)

(** C10. When the placeholder span or the instruction span is empty (or
    null), [load] returns at once: nothing is thrown and the scene is left
    exactly as it was. *)
Theorem load_empty_input (objects : list ptr) (instructions : list PRPInstruction)
    (scene : gmap ptr SceneObject) :
  objects = [] \/ instructions = [] ->
  load byHash byName objects instructions scene = Returned scene.
Proof.
  intros [-> | ->]; unfold load; cbn; [reflexivity|].
  by rewrite orb_true_r.
Qed.

(** ** C5: a single object without controllers and children *)

(** C5. For the stream [BeginObject props EndObject Container(0) Container(0)]
    where the registered type of the only placeholder verifies [props] and
    maps them to [v], [load] returns without an exception; the placeholder
    is the one object written: its properties are [v], its controllers are
    empty, and its child list is the (empty) one it had. *)
Theorem load_single_object (root : ptr) (obj : SceneObject) (ty : Type_)
    (begin endObj c1 c2 : PRPInstruction) (props : list PRPInstruction)
    (v : Value) (scene : gmap ptr SceneObject) :
  getOpCode begin = PRPOpCode.BeginObject ->
  getOpCode endObj = PRPOpCode.EndObject ->
  getOpCode c1 = PRPOpCode.Container -> trivial_i32 (getOperand c1) = 0%Z ->
  getOpCode c2 = PRPOpCode.Container -> trivial_i32 (getOperand c2) = 0%Z ->
  scene !! root = Some obj ->
  getChildren obj = [] ->
  byHash (getTypeId obj) = Some ty ->
  fst (verify ty (props ++ [endObj; c1; c2])) = true ->
  map ty (props ++ [endObj; c1; c2]) = (Some v, [endObj; c1; c2]) ->
  exists obj',
    load byHash byName [root] (begin :: props ++ [endObj; c1; c2]) scene
      = Returned (<[root := obj']> scene)
    /\ getProperties obj' = Some v
    /\ getControllers obj' = ∅
    /\ getChildren obj' = []
    /\ getTypeId obj' = getTypeId obj
    /\ getParent obj' = getParent obj.
Proof.
  intros Hb He Hc1 Hn1 Hc2 Hn2 Hobj Hch Hty Hver Hmap.
  exists (setProperties v (setControllers ∅ obj)).
  split; [|by repeat split].
  unfold load. cbn [Span.to_bool Span.empty negb orb].
  cbn [visitImpl].
  erewrite bind_Ok; last first.
  { eapply readProperties_ok; eauto.
    - unfold isBegin. by rewrite Hb.
    - unfold isEndObject. by rewrite He. }
  cbv beta iota.
  erewrite bind_Ok; last by (apply readControllers_none; [done | lia]).
  cbv beta iota.
  unfold update at 1 2. cbn [bind ctx heap at0 Span.at0 head ret].
  rewrite Hc2, Hn2. opcodes. cbn.
  f_equal. cbn [heap]. apply map_eq. intros k.
  destruct (decide (root = k)) as [<-|Hne].
  - by rewrite lookup_insert_eq, !lookup_alter_eq, Hobj.
  - by rewrite lookup_insert_ne, !lookup_alter_ne.
Qed.

End LoaderFacts.

(** ** Evaluations on the sample catalog *)

Lemma load_empty_input_witness :
  Sample.decode [] Sample.leaf Sample.scene3 = Returned Sample.scene3
  /\ Sample.decode [1%N] [] Sample.scene3 = Returned Sample.scene3.
Proof.
  split.
  - apply (load_empty_input Sample.byHash Sample.byShortName). by left.
  - apply (load_empty_input Sample.byHash Sample.byShortName). by right.
Defined.

Lemma load_single_object_witness :
  exists obj',
    Sample.decode [1%N] Sample.leaf Sample.scene3
      = Returned (<[1%N := obj']> Sample.scene3)
    /\ getProperties obj' = Some (mkValue (PComplex [("Value", PScalar 7)]) [])
    /\ getControllers obj' = ∅
    /\ getChildren obj' = []
    /\ getTypeId obj' = 16%N
    /\ getParent obj' = None.
Proof.
  apply (load_single_object Sample.byHash Sample.byShortName 1%N
           (Sample.placeholder 16) Sample.ZGEOM
           (Sample.instr PRPOpCode.BeginObject) (Sample.instr PRPOpCode.EndObject)
           (Sample.container 0) (Sample.container 0) [Sample.trivial 7]);
    reflexivity.
Defined.

Lemma not_complex_controller_throws_witness :
  visitImpl Sample.byHash Sample.byShortName [] None 1%N Sample.primitiveController
    (mkMachine (mkContext 0) Sample.scene3)
  = Throw FormatError (mkMachine (mkContext 0) Sample.scene3).
Proof.
  apply (not_complex_controller_throws Sample.byHash Sample.byShortName [] None 1%N
           Sample.primitiveController (mkMachine (mkContext 0) Sample.scene3) 0
           (Sample.text "Int32") (Sample.instr PRPOpCode.BeginObject)
           [Sample.trivial 1; Sample.instr PRPOpCode.EndObject; Sample.container 0]
           ∅ Sample.Int32).
  - exists (mkValue (PComplex [("Value", PScalar 7)]) []), (Sample.container 1),
      [Sample.text "Int32"; Sample.instr PRPOpCode.BeginObject; Sample.trivial 1;
       Sample.instr PRPOpCode.EndObject; Sample.container 0].
    split; [reflexivity|]. split; [discriminate|].
    split; [vm_compute; lia | reflexivity].
  - reflexivity.
  - reflexivity.
  - reflexivity.
  - discriminate.
Defined.

Lemma type_not_found_carries_index_witness :
  visitImpl Sample.byHash Sample.byShortName [] (Some 1%N) 2%N Sample.leaf
    (mkMachine (mkContext 1) Sample.sceneMissing)
  = Throw (SceneObjectTypeNotFoundException 1 (MissingHash 99))
      (mkMachine (mkContext 1) Sample.sceneMissing)
  /\ visitImpl Sample.byHash Sample.byShortName [] None 1%N Sample.unknownController
       (mkMachine (mkContext 0) Sample.scene3)
     = Throw (SceneObjectTypeNotFoundException 0 (MissingName "ZGhost"))
         (mkMachine (mkContext 0) Sample.scene3)
  /\ exists (k : nat) (o : ptr),
       [1%N; 2%N] !! k = Some o
       /\ 1%Z = (Z.of_nat k mod 2 ^ 32)%Z
       /\ exists obj, Sample.sceneMissing !! o = Some obj
                      /\ getTypeId obj = 99%N /\ Sample.byHash 99 = None.
Proof.
  destruct (type_not_found_carries_index Sample.byHash Sample.byShortName)
    as (Hobject & Hcontroller & Hload).
  split; [|split].
  - apply (Hobject [] (Some 1%N) 2%N (Sample.placeholder 99)
             (Sample.instr PRPOpCode.BeginObject)
             [Sample.trivial 7; Sample.instr PRPOpCode.EndObject;
              Sample.container 0; Sample.container 0]
             (mkMachine (mkContext 1) Sample.sceneMissing));
      reflexivity.
  - apply (Hcontroller [] None 1%N Sample.unknownController
             (mkMachine (mkContext 0) Sample.scene3) 1%nat
             (Sample.text "ZGhost") (Sample.instr PRPOpCode.BeginObject)
             [Sample.trivial 1; Sample.instr PRPOpCode.EndObject; Sample.container 0]
             {[ "ZTimer" := mkValue (PComplex [("Value", PScalar 1)]) [] ]}).
    + exists (mkValue (PComplex [("Value", PScalar 7)]) []), (Sample.container 2),
        (Sample.timer 1 []
         ++ [Sample.text "ZGhost"; Sample.instr PRPOpCode.BeginObject;
             Sample.trivial 1; Sample.instr PRPOpCode.EndObject; Sample.container 0]).
      split; [reflexivity|]. split; [discriminate|].
    split; [vm_compute; lia | reflexivity].
    + reflexivity.
    + reflexivity.
    + reflexivity.
  - apply (Hload [1%N; 2%N] Sample.parentOfLeaf Sample.sceneMissing 1%Z
             (MissingHash 99)
             (Sample.sceneOf
                (Sample.decode [1%N; 2%N] Sample.parentOfLeaf Sample.sceneMissing))).
    reflexivity.
Defined.

(** ** C6: an unknown type behind a decoded sibling *)

(** C6. On the sample catalog, for a root with two well-formed children of
    which the second has a type id that the catalog does not know: the first
    child is visited and filled, the second is never reached, and [load]
    ends with the visitor exception "Expected EndObject" carrying index 1,
    not with "type not found" for the object at position 2. *)
Theorem unknown_type_behind_sibling :
  let out :=
    Sample.decode [1%N; 2%N; 3%N] MoreSamples.twoChildren
      MoreSamples.sceneThirdMissing in
  out = Raised (SceneObjectVisitorException 1
                  "Invalid children definition (Expected EndObject)")
          (sceneAfter out)
  /\ Sample.isFilled (sceneAfter out) 2%N = true
  /\ Sample.isFilled (sceneAfter out) 3%N = false
  /\ getTypeId <$> MoreSamples.sceneThirdMissing !! 3%N = Some 99%N
  /\ Sample.byHash 99 = None.
Proof.
  cbv zeta. repeat split; reflexivity.
Qed.

(** ** C7: a controller of a type that is not complex *)

(** C7. On the sample catalog, for an object whose only controller names
    the primitive type [Int32]: [load] ends with the format error of the
    exception's message, the scene untouched, and not with the "not allowed
    to be controller" visitor exception. *)
Theorem not_complex_controller_raises_format_error :
  Sample.decode [1%N] Sample.primitiveController Sample.scene3
  = Raised FormatError Sample.scene3
  /\ Sample.byShortName "Int32" = Some Sample.Int32
  /\ getKind Sample.Int32 = TypeKind.PRIMITIVE
  /\ Sample.decode [1%N] Sample.primitiveController Sample.scene3
     <> Raised (SceneObjectVisitorException 0
                  "Type '{}' not allowed to be controller because it's not COMPLEX")
          Sample.scene3.
Proof.
  repeat split; try reflexivity. discriminate.
Qed.

(** ** C1: the gate of stage 2 on the sample streams *)

(** C1. On the sample catalog, a stream whose controllers container is a
    [NamedContainer] is rejected by the gate of stage 2 with the "Expected
    Container/NamedContainer" exception, and a stream with a [String]
    instruction in that place passes the gate and is decoded like the
    well-formed object without controllers. *)
Theorem stage2_gate_is_inverted :
  Sample.decode [1%N] Sample.namedGate Sample.scene3
  = Raised (SceneObjectVisitorException 0
              "Invalid object definition (Expected Container/NamedContainer)")
      Sample.scene3
  /\ Sample.decode [1%N] Sample.stringGate Sample.scene3
     = Sample.decode [1%N] Sample.leaf Sample.scene3
  /\ exists scene', Sample.decode [1%N] Sample.leaf Sample.scene3 = Returned scene'.
Proof.
  split; [reflexivity|]. split; [reflexivity|]. eexists. reflexivity.
Qed.

(** ** C2: the cursor of the child *)

(** C2. On the sample catalog, for a parent with one well-formed child
    followed by its trailing [EndObject]: the visit of the child returns,
    the child having been filled, and the parent then throws "Expected
    EndObject", its own cursor still being on the child's [BeginObject]. *)
Theorem child_cursor_is_not_shared :
  let out := Sample.decode [1%N; 2%N] Sample.parentOfLeaf Sample.scene3 in
  out = Raised (SceneObjectVisitorException 1
                  "Invalid children definition (Expected EndObject)")
          (Sample.sceneOf out)
  /\ Sample.isFilled (Sample.sceneOf out) 2%N = true
  /\ exists m',
       visitImpl Sample.byHash Sample.byShortName [] (Some 1%N) 2%N Sample.leaf
         (mkMachine (mkContext 1) Sample.scene3) = Ok tt m'.
Proof.
  cbv zeta. split; [reflexivity|]. split; [reflexivity|]. eexists. reflexivity.
Qed.

(** ** C3: the unexposed tail on the sample streams *)

(** C3. On the sample catalog, with a controller type that tolerates
    trailing instructions: one surplus instruction leaves two retained
    instructions (the surplus one and the [EndObject]); two surplus
    instructions leave two when exactly two instructions follow them in the
    stream, and three when one more instruction follows. All three decodes
    return, the cursor being on the [EndObject] after the scan. *)
Theorem unexposed_tail_is_miscounted :
  Sample.retained
    (Sample.sceneOf (Sample.decode [1%N] Sample.oneSurplus Sample.scene3))
    1%N "ZTimer"
  = Some [Sample.trivial 2; Sample.instr PRPOpCode.EndObject]
  /\ Sample.retained
       (Sample.sceneOf (Sample.decode [1%N] Sample.twoSurplus Sample.scene3))
       1%N "ZTimer"
     = Some [Sample.trivial 2; Sample.trivial 3]
  /\ Sample.retained
       (Sample.sceneOf (Sample.decode [1%N] Sample.twoSurplusThenMore Sample.scene3))
       1%N "ZTimer"
     = Some [Sample.trivial 2; Sample.trivial 3; Sample.instr PRPOpCode.EndObject]
  /\ (exists s, Sample.decode [1%N] Sample.oneSurplus Sample.scene3 = Returned s)
  /\ (exists s, Sample.decode [1%N] Sample.twoSurplusThenMore Sample.scene3
                = Returned s).
Proof.
  repeat split; try reflexivity; eexists; reflexivity.
Qed.

(** ** C4: the back-reference of a child *)

(** C4. On the sample catalog: a child without children of its own is
    visited and filled but its back-reference is never stored, neither when
    its visit returns nor in the scene that [load] leaves; in a chain of
    three, the middle object (which has a child) gets its back-reference
    and the last one (which has none) does not. *)
Theorem leaf_child_has_no_parent :
  (exists m',
     visitImpl Sample.byHash Sample.byShortName [] (Some 1%N) 2%N Sample.leaf
       (mkMachine (mkContext 1) Sample.scene3) = Ok tt m'
     /\ Sample.isFilled (heap m') 2%N = true
     /\ Sample.parentOf (heap m') 2%N = None)
  /\ (let scene' :=
        Sample.sceneOf (Sample.decode [1%N; 2%N] Sample.parentOfLeaf Sample.scene3) in
      Sample.isFilled scene' 2%N = true /\ Sample.parentOf scene' 2%N = None)
  /\ (let scene' :=
        Sample.sceneOf (Sample.decode [1%N; 2%N; 3%N] Sample.chain3 Sample.scene3) in
      Sample.parentOf scene' 2%N = Some 1%N
      /\ Sample.isFilled scene' 3%N = true
      /\ Sample.parentOf scene' 3%N = None).
Proof.
  split; [|split].
  - eexists. split; [reflexivity|]. split; reflexivity.
  - cbv zeta. split; reflexivity.
  - cbv zeta. repeat split; reflexivity.
Qed.


(** * Further properties of the loader *)

Ltac run_decode :=
  unfold bind, at0, Span.at0, ret, throw, throwVisitor, throwTypeNotFound,
    readTypeId in *;
  repeat case_match; simplify_eq/=.

Ltac decide_opcodes :=
  repeat first
    [ rewrite bool_decide_eq_true_2 by done
    | rewrite bool_decide_eq_false_2 by done ];
  cbn [negb andb orb].

Section LoaderMore.

Variable byHash : N -> option Type_.
Variable byName : string -> option Type_.

(** *** The index carried by an exception *)

Lemma readProperties_Throw_index cur ip e m m' idx :
  readProperties byHash cur ip m = Throw e m' ->
  exceptionIndex e = Some idx ->
  idx = objectIdx (ctx m).
Proof.
  unfold readProperties. intros H Hidx. run_decode; by simplify_eq/=.
Qed.

Lemma readController_Throw_index ip c e m m' idx :
  readController byName ip c m = Throw e m' ->
  exceptionIndex e = Some idx ->
  idx = objectIdx (ctx m).
Proof.
  unfold readController. intros H Hidx. run_decode; try by simplify_eq/=.
  all: match goal with
       | H : extractUnexposed ?n ?i ?c ?m = _ |- _ =>
           destruct (extractUnexposed_inv n i c m) as [[? Hx]|[? Hx]];
           rewrite Hx in H; by simplify_eq/=
       end.
Qed.

Lemma controllersLoop_Throw_index n ip c e m m' idx :
  controllersLoop byName n ip c m = Throw e m' ->
  exceptionIndex e = Some idx ->
  idx = objectIdx (ctx m).
Proof.
  revert ip c m. induction n as [|n IH]; intros ip c m; cbn; [discriminate|].
  intros H Hidx. apply bind_Throw_inv in H as [H | ([ip1 c1] & m1 & H1 & H2)].
  - by eapply readController_Throw_index.
  - apply readController_Ok_inv in H1 as ->. by eapply IH.
Qed.

Lemma readControllers_Throw_index ip e m m' idx :
  readControllers byName ip m = Throw e m' ->
  exceptionIndex e = Some idx ->
  idx = objectIdx (ctx m).
Proof.
  unfold readControllers. intros H Hidx.
  apply bind_Throw_inv in H as [H | (i & m1 & H1 & H2)].
  { run_decode; by simplify_eq/=. }
  assert (m1 = m) as -> by (run_decode; done).
  destruct (_ && _); [unfold throwVisitor in H2; by simplify_eq/=|].
  apply bind_Throw_inv in H2 as [H2 | ([ip1 c1] & m2 & H2 & H3)];
    [|discriminate].
  by eapply controllersLoop_Throw_index.
Qed.

(** How a visit that throws came to throw: by an exception of the object's
    own stages, carrying the index the visit started with, or inside the
    first turn of its children loop. *)
Lemma visitImpl_Throw_stages objects parent cur ip m e m' :
  visitImpl byHash byName objects parent cur ip m = Throw e m' ->
  (forall idx, exceptionIndex e = Some idx -> idx = objectIdx (ctx m))
  \/ exists v c ip3 child rest,
       objects = child :: rest
       /\ let m2 := enterChild parent cur (fillObject cur v c m) in
          visitImpl byHash byName rest (Some cur) child ip3 m2 = Throw e m'
          \/ (visitImpl byHash byName rest (Some cur) child ip3 m2 = Ok tt m'
              /\ e = SceneObjectVisitorException (objectIdx (ctx m'))
                       "Invalid children definition (Expected EndObject)").
Proof.
  rewrite visitImpl_eq. intros H.
  apply bind_Throw_inv in H as [H | ([v ip1] & m1 & H1 & H)].
  { left. intros idx. by eapply readProperties_Throw_index. }
  apply readProperties_Ok_inv in H1 as [-> _].
  apply bind_Throw_inv in H as [H | ([c ip2] & m2 & H2 & H)].
  { left. intros idx. by eapply readControllers_Throw_index. }
  apply readControllers_Ok_inv in H2 as ->.
  unfold update at 1 2 in H. unfold bind at 1 2 in H. cbn [ctx heap] in H.
  fold (fillObject cur v c m) in H.
  destruct ip2 as [|i ip3]; [left; by injection H as <- _|].
  unfold bind at 1 in H. rewrite at0_cons in H.
  destruct (_ && _); [left; by injection H as <- _; intros idx [= <-]|].
  destruct (Z.to_nat (trivial_i32 (getOperand i))) as [|n]; [discriminate|].
  match type of H with
  | visitChildren ?vc ?p ?c (S ?n) ?ip ?m = _ =>
      destruct (visitChildren_S_inv vc p c n ip m) as (e' & m4 & Heq & Hcase);
      [ intros ? ? ? ?; apply (visitChild_head byHash byName _ cur) | ]
  end.
  rewrite Heq in H. injection H as -> ->.
  destruct objects as [|child rest].
  - left. destruct Hcase as [Hc | [Hc _]]; [|discriminate].
    by injection Hc as <- _.
  - right. by exists v, c, (Span.next (i :: ip3)), child, rest.
Qed.

Lemma visitImpl_Throw_index objects :
  forall parent cur ip m e m' idx,
    visitImpl byHash byName objects parent cur ip m = Throw e m' ->
    exceptionIndex e = Some idx ->
    exists k : nat,
      (k <= length objects)%nat /\ idx = advance k (objectIdx (ctx m)).
Proof.
  induction objects as [|child rest IH]; intros parent cur ip m e m' idx H Hidx.
  all: apply visitImpl_Throw_stages in H
         as [Hown | (v & c & ip3 & child' & rest' & Heq & Hloop)];
    [ exists 0%nat; split; [lia | by apply Hown] | ].
  - discriminate.
  - injection Heq as <- <-. cbv zeta in Hloop. destruct Hloop as [Hc | [Hc ->]].
    + destruct (IH _ _ _ _ _ _ _ Hc Hidx) as (k & Hk & ->).
      exists (S k). split; [cbn; lia|].
      cbn [enterChild fillObject ctx objectIdx]. apply advance_shift.
    + apply visitImpl_Ok_leaf in Hc as (v' & c' & ->).
      injection Hidx as <-. exists 1%nat. split; [cbn; lia|]. reflexivity.
Qed.

(** X1. Every exception that leaves [load] with an object index carries the
    position of one of the placeholders (modulo [2 ^ 32], the counter being a
    [uint32_t]): the index never runs past the placeholder list. *)
Theorem load_exception_index (objects : list ptr)
    (instructions : list PRPInstruction) (scene scene' : gmap ptr SceneObject)
    (e : Exception) (idx : Z) :
  load byHash byName objects instructions scene = Raised e scene' ->
  exceptionIndex e = Some idx ->
  exists k : nat,
    (k < length objects)%nat /\ idx = (Z.of_nat k mod 2 ^ 32)%Z.
Proof.
  unfold load. destruct (_ || _); [discriminate|].
  destruct objects as [|root rest]; [intros [= <- _]; discriminate|].
  destruct (visitImpl _ _ _ _ _ _ _) as [r m|e' m] eqn:Hv; [discriminate|].
  intros [= -> <-] Hidx.
  destruct (visitImpl_Throw_index _ _ _ _ _ _ _ _ Hv Hidx) as (k & Hk & ->).
  exists k. split; [cbn; lia | apply advance_0].
Qed.

(** *** What the loader leaves alone *)

Lemma alter_skeleton (f : SceneObject -> SceneObject) (o : ptr)
    (h : gmap ptr SceneObject) :
  (forall x, skeleton (f x) = skeleton x) ->
  skeleton <$> alter f o h = skeleton <$> h.
Proof.
  intros Hf. apply map_eq. intros k. rewrite !lookup_fmap.
  destruct (decide (o = k)) as [->|Hne].
  - rewrite lookup_alter_eq. destruct (h !! k); cbn; by rewrite ?Hf.
  - by rewrite lookup_alter_ne.
Qed.

Lemma fillObject_skeleton cur v c m :
  skeleton <$> heap (fillObject cur v c m) = skeleton <$> heap m.
Proof. unfold fillObject. cbn [heap]. by rewrite !alter_skeleton. Qed.

Lemma enterChild_skeleton parent cur m :
  skeleton <$> heap (enterChild parent cur m) = skeleton <$> heap m.
Proof.
  unfold enterChild. cbn [heap]. destruct parent; [|done].
  by rewrite alter_skeleton.
Qed.

Lemma visitImpl_skeleton objects :
  forall parent cur ip m,
    skeleton <$> heap (worldOf (visitImpl byHash byName objects parent cur ip m))
    = skeleton <$> heap m.
Proof.
  induction objects as [|child rest IH]; intros parent cur ip m.
  all: match goal with
       | |- context [visitImpl _ _ ?objs _ _ _ _] =>
           destruct (visitImpl_cases byHash byName objs parent cur ip m)
             as [(e & -> & _)
                | (v & c & ip3 & [-> | [-> | [-> | (e & m' & -> & Hloop)]]])]
       end; cbn [worldOf]; try done; try apply fillObject_skeleton.
  - cbv zeta in Hloop. destruct Hloop as [Hc | [Hc _]]; [|discriminate].
    injection Hc as _ <-.
    by rewrite enterChild_skeleton, fillObject_skeleton.
  - cbv zeta in Hloop.
    assert (m' = worldOf (visitImpl byHash byName rest (Some cur) child ip3
                            (enterChild parent cur (fillObject cur v c m))))
      as -> by (destruct Hloop as [-> | [-> _]]; reflexivity).
    by rewrite IH, enterChild_skeleton, fillObject_skeleton.
Qed.

(** X2. Whether [load] returns or raises, the scene it leaves has the same
    objects at the same addresses as the scene it was given, each with the
    type id and the child list it had: the loader only ever writes
    properties, controllers and back-references. *)
Theorem load_keeps_skeleton (objects : list ptr)
    (instructions : list PRPInstruction) (scene : gmap ptr SceneObject) :
  skeleton <$> sceneAfter (load byHash byName objects instructions scene)
  = skeleton <$> scene.
Proof.
  unfold load. destruct (_ || _); [reflexivity|].
  destruct objects as [|root rest]; [reflexivity|].
  pose proof (visitImpl_skeleton rest None root instructions
                {| ctx := {| objectIdx := 0 |}; heap := scene |}) as H.
  by destruct (visitImpl _ _ _ _ _ _ _).
Qed.

(** X3. A [load] that returns has either done nothing (an input was empty)
    or written the controllers and the properties of the first placeholder
    and nothing else in the scene. *)
Theorem load_Returned_only_root (objects : list ptr)
    (instructions : list PRPInstruction) (scene scene' : gmap ptr SceneObject) :
  load byHash byName objects instructions scene = Returned scene' ->
  ((objects = [] \/ instructions = []) /\ scene' = scene)
  \/ exists root rest v c,
       objects = root :: rest
       /\ scene' = alter (setProperties v) root
                     (alter (setControllers c) root scene).
Proof.
  unfold load. destruct objects as [|root rest]; cbn.
  { intros [= <-]. left. split; [by left | done]. }
  destruct instructions as [|i ip]; cbn.
  { intros [= <-]. left. split; [by right | done]. }
  destruct (visitImpl _ _ _ _ _ _ _) as [r m|e m] eqn:Hv; [|discriminate].
  intros [= <-]. right. apply visitImpl_Ok_leaf in Hv as (v & c & ->).
  by exists root, rest, v, c.
Qed.

(** X4. When the children container of an object announces a child and no
    placeholder is pending, the visit has written the object (and, the
    object having a parent, its back-reference), has stepped the object
    index, and throws the bounds exception of the empty placeholder span. *)
Theorem child_without_placeholder (parent : option ptr) (cur : ptr)
    (ip ip1 ip3 : list PRPInstruction) (m : Machine) (v : Value)
    (c : gmap string Value) (g : PRPInstruction) :
  readProperties byHash cur ip m = Ok (v, ip1) m ->
  readControllers byName ip1 m = Ok (c, g :: ip3) m ->
  getOpCode g = PRPOpCode.Container \/ getOpCode g = PRPOpCode.NamedContainer ->
  (0 < trivial_i32 (getOperand g))%Z ->
  visitImpl byHash byName [] parent cur ip m
  = Throw OutOfRange (enterChild parent cur (fillObject cur v c m)).
Proof.
  intros H1 H2 Hg Hpos. rewrite visitImpl_eq.
  erewrite bind_Ok by exact H1. cbv beta iota.
  erewrite bind_Ok by exact H2. cbv beta iota.
  unfold update at 1 2. unfold bind at 1 2. cbn [ctx heap].
  fold (fillObject cur v c m).
  unfold bind at 1. rewrite at0_cons.
  replace (negb (bool_decide (getOpCode g = PRPOpCode.Container))
           && negb (bool_decide (getOpCode g = PRPOpCode.NamedContainer)))
    with false by (destruct Hg as [-> | ->]; by decide_opcodes).
  destruct (Z.to_nat (trivial_i32 (getOperand g))) as [|n] eqn:Hn; [lia|].
  cbn [visitChildren]. by destruct parent.
Qed.

(** X5. Unless the properties and all the controllers of an object are read
    without an exception, the visit of the object throws in the world it
    started in: nothing of an object is written before its stages 1 and 2
    are through. *)
Theorem stages_fail_before_writing (objects : list ptr) (parent : option ptr)
    (cur : ptr) (ip : list PRPInstruction) (m : Machine) :
  (forall v ip1 c ip2,
     ~ (readProperties byHash cur ip m = Ok (v, ip1) m
        /\ readControllers byName ip1 m = Ok (c, ip2) m)) ->
  exists e, visitImpl byHash byName objects parent cur ip m = Throw e m.
Proof.
  intros Hnot. rewrite visitImpl_eq. unfold bind at 1.
  destruct (readProperties byHash cur ip m) as [[v ip1] m1|e m1] eqn:H1.
  2:{ apply (readProperties_Throw_inv byHash byName) in H1 as [-> _].
      by exists e. }
  pose proof H1 as H1c. apply readProperties_Ok_inv in H1c as [-> _].
  unfold bind at 1.
  destruct (readControllers byName ip1 m) as [[c ip2] m2|e m2] eqn:H2.
  2:{ apply (readControllers_Throw_inv byHash byName cur) in H2 as [-> _].
      by exists e. }
  pose proof H2 as H2c. apply readControllers_Ok_inv in H2c as ->.
  destruct (Hnot v ip1 c ip2). by split.
Qed.

(** X6. Verification comes before mapping: when the descriptor of the
    object rejects the window, the visit throws "verification failed"
    whatever [map] would return; when it accepts the window and [map]
    yields no value, the visit throws the second "verification failed". In
    both cases the world is the one the visit started in. *)
Theorem verification_precedes_mapping (objects : list ptr) (parent : option ptr)
    (cur : ptr) (obj : SceneObject) (ty : Type_) (i : PRPInstruction)
    (ip : list PRPInstruction) (m : Machine) :
  isBegin i = true ->
  heap m !! cur = Some obj ->
  byHash (getTypeId obj) = Some ty ->
  (fst (verify ty ip) = false ->
   visitImpl byHash byName objects parent cur (i :: ip) m
   = Throw (SceneObjectVisitorException (objectIdx (ctx m))
              "Invalid instructions set (verification failed)") m)
  /\ (fst (verify ty ip) = true -> fst (map ty ip) = None ->
      visitImpl byHash byName objects parent cur (i :: ip) m
      = Throw (SceneObjectVisitorException (objectIdx (ctx m))
                 "Invalid instructions set (verification failed) [2]") m).
Proof.
  intros Hi Hobj Hty.
  assert (forall k : Value * list PRPInstruction -> Decode unit,
            bind (readProperties byHash cur (i :: ip)) k m
            = (let '(vRes, _) := verify ty ip in
               if negb vRes then
                 throwVisitor "Invalid instructions set (verification failed)" m
               else
                 let '(value, newIP) := map ty ip in
                 match value with
                 | None =>
                     throwVisitor
                       "Invalid instructions set (verification failed) [2]" m
                 | Some properties =>
                     bind (let* i := at0 newIP in
                           if negb (isEndObject i) then
                             throwVisitor "Object decl must ends with EndObject"
                           else ret (properties, Span.next newIP)) k m
                 end)) as Hstage.
  { intros k. unfold readProperties, bind at 1 2.
    rewrite at0_cons, Hi. cbn [negb Span.next tail].
    unfold bind at 1, readTypeId. rewrite Hobj, Hty.
    destruct (verify ty ip) as [[] ?]; cbn [negb]; [|done].
    by destruct (map ty ip) as [[?|] ?]. }
  rewrite visitImpl_eq, Hstage.
  destruct (verify ty ip) as [vRes ip']. cbn [fst].
  split.
  - by intros ->.
  - intros -> Hmap. cbn [negb]. destruct (map ty ip) as [value newIP].
    cbn in Hmap. by subst value.
Qed.

(** *** Controllers that decode *)

Lemma findEndObject_inv l k l' k' :
  findEndObject l k = (l', k') ->
  exists pre,
    l = pre ++ l'
    /\ Forall (fun i => isEndObject i = false) pre
    /\ k' = (k + Z.of_nat (length pre))%Z
    /\ (l' = [] \/ exists e post, l' = e :: post /\ isEndObject e = true).
Proof.
  revert k. induction l as [|i l IH]; intros k; cbn [findEndObject].
  - intros [= <- <-]. exists []. repeat split; [constructor | cbn; lia | by left].
  - destruct (isEndObject i) eqn:Hi.
    + intros [= <- <-]. exists [].
      repeat split; [constructor | cbn; lia | right; eauto].
    + intros H. apply IH in H as (pre & -> & Hpre & -> & Hl').
      exists (i :: pre).
      repeat split; [by constructor | cbn [length]; lia | done].
Qed.

(** X7. A controller that decodes: the window opens with [String] and
    [BeginObject]/[BeginNamedObject], the name resolves to a [COMPLEX]
    descriptor whose [map] yields a value, and the cursor returned is the one
    just after the first [EndObject] that follows the mapped part.
    Instructions between the mapped part and that [EndObject] are skipped
    only for a descriptor that tolerates them. The controllers map gets the
    mapped value under the controller's name, its instruction list possibly
    extended, and is unchanged at every other name; the world is
    untouched. *)
Theorem controller_decoded (ip ip' : list PRPInstruction)
    (c c' : gmap string Value) (m m' : Machine) :
  readController byName ip c m = Ok (ip', c') m' ->
  exists i0 i1 rest ty v pre e,
    ip = i0 :: i1 :: rest
    /\ getOpCode i0 = PRPOpCode.String
    /\ isBegin i1 = true
    /\ byName (str (getOperand i0)) = Some ty
    /\ getKind ty = TypeKind.COMPLEX
    /\ map ty rest = (Some v, pre ++ e :: ip')
    /\ Forall (fun i => isEndObject i = false) pre
    /\ isEndObject e = true
    /\ (pre = [] \/ areUnexposedInstructionsAllowed ty = true)
    /\ m' = m
    /\ (forall n, n <> str (getOperand i0) -> c' !! n = c !! n)
    /\ exists v' extra,
         c' !! str (getOperand i0) = Some v'
         /\ payload v' = payload v
         /\ getInstructions v' = getInstructions v ++ extra.
Proof.
  intros H. pose proof (readController_Ok_inv _ _ _ _ _ _ H) as ->.
  unfold readController in H.
  destruct ip as [|i0 ip]; [discriminate|].
  unfold bind at 1 in H. rewrite at0_cons in H.
  destruct (bool_decide (getOpCode i0 = PRPOpCode.String)) eqn:Hs;
    cbn [negb] in H; [|discriminate].
  apply bool_decide_eq_true in Hs. cbn [Span.next tail] in H.
  destruct ip as [|i1 rest]; [discriminate|].
  unfold bind at 1 in H. rewrite at0_cons in H.
  destruct (isBegin i1) eqn:Hb; cbn [negb] in H; [|discriminate].
  destruct (byName (str (getOperand i0))) as [ty|] eqn:Hty; [|discriminate].
  destruct (bool_decide (getKind ty = TypeKind.COMPLEX)) eqn:Hk;
    cbn [negb] in H; [|discriminate].
  apply bool_decide_eq_true in Hk. cbn [Span.next tail] in H.
  destruct (map ty rest) as [[v|] afterMap] eqn:Hmap; [|discriminate].
  destruct afterMap as [|x more]; [discriminate|].
  unfold bind at 1 in H. rewrite at0_cons in H.
  apply bind_Ok_inv in H as ([ip2 c2] & m2 & Hbranch & H).
  destruct ip2 as [|e ip2]; [discriminate|].
  unfold bind at 1 in H. rewrite at0_cons in H.
  destruct (isEndObject e) eqn:He; cbn [negb] in H; [|discriminate].
  injection H as <- <- _. cbn [Span.next tail].
  set (name := str (getOperand i0)) in *.
  destruct (negb (isEndObject x) && areUnexposedInstructionsAllowed ty) eqn:Hgo.
  - apply andb_true_iff in Hgo as [_ Hallowed].
    unfold extractUnexposed in Hbranch.
    destruct (findEndObject (x :: more) 0) as [l' k'] eqn:Hf.
    apply findEndObject_inv in Hf as (pre & Hl & Hpre & -> & _).
    destruct (Span.empty l'); [discriminate|].
    injection Hbranch as Hcursor <- _.
    rewrite Hl, Z.add_0_l, slice_suffix in Hcursor by (rewrite length_app; lia).
    rewrite drop_app_length in Hcursor. subst l'.
    exists i0, i1, rest, ty, v, pre, e. rewrite <- Hl.
    split_and!; try done; [by right | |].
    + intros n Hn. by rewrite lookup_alter_ne, lookup_insert_ne.
    + eexists _, _. rewrite lookup_alter_eq, lookup_insert_eq. cbn.
      split; [reflexivity|]. by split.
  - injection Hbranch as <- <- <- _.
    assert (isEndObject x = true) as Hx by done.
    exists i0, i1, rest, ty, v, [], x.
    split_and!; try done; [by left | |].
    + intros n Hn. by rewrite lookup_insert_ne.
    + exists v, []. rewrite lookup_insert_eq. by rewrite app_nil_r.
Qed.

(** X8. A controller whose mapped part is not followed by [EndObject]: for
    a descriptor that does not tolerate trailing instructions the visit of
    the controller throws "Expected EndObject", whatever comes later in the
    stream; for a tolerant descriptor with no [EndObject] anywhere in the
    rest of the stream it throws the exception that names the controller. *)
Theorem controller_without_EndObject (i0 i1 x : PRPInstruction)
    (rest more : list PRPInstruction) (ty : Type_) (v : Value)
    (c : gmap string Value) (m : Machine) :
  getOpCode i0 = PRPOpCode.String ->
  isBegin i1 = true ->
  byName (str (getOperand i0)) = Some ty ->
  getKind ty = TypeKind.COMPLEX ->
  map ty rest = (Some v, x :: more) ->
  isEndObject x = false ->
  (areUnexposedInstructionsAllowed ty = false ->
   readController byName (i0 :: i1 :: rest) c m
   = Throw (SceneObjectVisitorException (objectIdx (ctx m))
              "Invalid controller definition (Expected EndObject)") m)
  /\ (areUnexposedInstructionsAllowed ty = true ->
      Forall (fun i => isEndObject i = false) more ->
      readController byName (i0 :: i1 :: rest) c m
      = Throw (SceneObjectVisitorException (objectIdx (ctx m))
                 ("Invalid controller definition: We have controller '"
                  +:+ str (getOperand i0)
                  +:+ "' with unexposed instructions and without EndObject instruction!"))
          m).
Proof.
  intros H0 H1 Hty Hk Hmap Hx.
  unfold readController.
  rewrite (bind_Ok _ _ _ _ _ (at0_cons _ _ _)), H0. decide_opcodes.
  cbn [Span.next tail]. rewrite (bind_Ok _ _ _ _ _ (at0_cons _ _ _)), H1.
  cbn [negb]. rewrite Hty, Hk. decide_opcodes. rewrite Hmap.
  rewrite (bind_Ok _ _ _ _ _ (at0_cons _ _ _)), Hx. cbn [negb andb].
  split.
  - intros ->. unfold bind at 1, ret. unfold bind at 1. rewrite at0_cons, Hx.
    reflexivity.
  - intros -> Hnone. apply bind_Throw. unfold extractUnexposed.
    assert (findEndObject (x :: more) 0
            = ([], Z.of_nat (length (x :: more)))) as ->; [|reflexivity].
    assert (forall l k, Forall (fun i => isEndObject i = false) l ->
                        findEndObject l k = ([], (k + Z.of_nat (length l))%Z))
      as Hscan.
    { intros l k Hl. revert k.
      induction Hl as [|y l Hy _ IH]; intros k; cbn [findEndObject length].
      - f_equal. lia.
      - rewrite Hy, IH. f_equal. lia. }
    by rewrite Hscan by (by constructor).
Qed.

(** X9. [load] stops at the end of the first object: for an object without
    controllers and children (counts zero or negative), whatever
    instructions follow it in the stream and whatever placeholders follow
    the first one are left unread and unvisited, and [load] returns having
    written the first placeholder only. *)
Theorem load_ignores_what_follows (root : ptr) (rest : list ptr)
    (obj : SceneObject) (ty : Type_) (begin endObj g2 g3 : PRPInstruction)
    (props trailing : list PRPInstruction) (v : Value)
    (scene : gmap ptr SceneObject) :
  isBegin begin = true ->
  isEndObject endObj = true ->
  getOpCode g2 = PRPOpCode.Container ->
  (trivial_i32 (getOperand g2) <= 0)%Z ->
  getOpCode g3 = PRPOpCode.Container \/ getOpCode g3 = PRPOpCode.NamedContainer ->
  (trivial_i32 (getOperand g3) <= 0)%Z ->
  scene !! root = Some obj ->
  byHash (getTypeId obj) = Some ty ->
  fst (verify ty (props ++ endObj :: g2 :: g3 :: trailing)) = true ->
  map ty (props ++ endObj :: g2 :: g3 :: trailing)
    = (Some v, endObj :: g2 :: g3 :: trailing) ->
  load byHash byName (root :: rest)
    (begin :: props ++ endObj :: g2 :: g3 :: trailing) scene
  = Returned (alter (setProperties v) root (alter (setControllers ∅) root scene)).
Proof.
  intros Hb He Hg2 Hn2 Hg3 Hn3 Hobj Hty Hver Hmap.
  unfold load. cbn [Span.to_bool Span.empty negb orb].
  rewrite visitImpl_eq.
  erewrite bind_Ok; last by (eapply readProperties_ok; eauto).
  cbv beta iota.
  erewrite bind_Ok; last by (apply readControllers_none).
  cbv beta iota.
  unfold update at 1 2. cbn [bind ctx heap at0 Span.at0 head ret].
  replace (negb (bool_decide (getOpCode g3 = PRPOpCode.Container))
           && negb (bool_decide (getOpCode g3 = PRPOpCode.NamedContainer)))
    with false by (destruct Hg3 as [-> | ->]; by decide_opcodes).
  replace (Z.to_nat (trivial_i32 (getOperand g3))) with 0%nat by lia.
  reflexivity.
Qed.

(** X12. The gate of stage 3 comes after the object is written: when the
    properties and the controllers were read and the instruction at the
    cursor is neither a [Container] nor a [NamedContainer], the visit throws
    "Expected Container with children geoms" with the index it started
    with, and the controllers and properties of the object are already
    stored. *)
Theorem children_gate_rejects (objects : list ptr) (parent : option ptr)
    (cur : ptr) (ip ip1 ip3 : list PRPInstruction) (m : Machine) (v : Value)
    (c : gmap string Value) (g : PRPInstruction) :
  readProperties byHash cur ip m = Ok (v, ip1) m ->
  readControllers byName ip1 m = Ok (c, g :: ip3) m ->
  getOpCode g <> PRPOpCode.Container ->
  getOpCode g <> PRPOpCode.NamedContainer ->
  visitImpl byHash byName objects parent cur ip m
  = Throw (SceneObjectVisitorException (objectIdx (ctx m))
             "Invalid controller definition (Expected Container with children geoms)")
      (fillObject cur v c m).
Proof.
  intros H1 H2 Hc Hn. rewrite visitImpl_eq.
  erewrite bind_Ok by exact H1. cbv beta iota.
  erewrite bind_Ok by exact H2. cbv beta iota.
  unfold update at 1 2. unfold bind at 1 2. cbn [ctx heap].
  fold (fillObject cur v c m).
  unfold bind at 1. rewrite at0_cons.
  by rewrite (bool_decide_eq_false_2 _ Hc), (bool_decide_eq_false_2 _ Hn).
Qed.

End LoaderMore.

(** * Further properties of the registry *)

(** X10. [registerType] keeps the name index and the owned descriptors in
    agreement: if every owned descriptor is indexed under its name, every
    index entry points to an owned descriptor of that name and no two owned
    descriptors share a name, then the same holds after the call, whatever
    was passed (a null pointer, a duplicate or a fresh descriptor). *)
Theorem registerType_keeps_index (u : TypeRegistry.unique_ptr)
    (self : TypeRegistry.t) :
  indexConsistent self ->
  indexConsistent (TypeRegistry.registerType u self).1.2.
Proof.
  intros (Hown & Hidx & Hnodup).
  destruct u as [[p ty]|]; [|done].
  unfold TypeRegistry.registerType, TypeRegistry.try_emplace.
  destruct (TypeRegistry.m_typesByName self !! getName ty) as [q|] eqn:Hq;
    cbn -[elem_of]; [by destruct self|].
  split; [|split]; cbn.
  - intros p' ty' Hin. apply elem_of_app in Hin as [Hin | Hin].
    + rewrite lookup_insert_ne; [by apply Hown|].
      intros Heq. apply Hown in Hin. congruence.
    + apply list_elem_of_singleton in Hin as [= -> ->].
      by rewrite lookup_insert_eq.
  - intros name p' Hlook.
    destruct (decide (getName ty = name)) as [<-|Hne].
    + rewrite lookup_insert_eq in Hlook. injection Hlook as <-.
      exists ty. split; [|done]. apply elem_of_app. right. by left.
    + rewrite lookup_insert_ne in Hlook by done.
      destruct (Hidx _ _ Hlook) as (ty' & Hin & Hname).
      exists ty'. split; [|done]. apply elem_of_app. by left.
  - rewrite fmap_app. apply NoDup_app. split; [done|]. split.
    + intros name Hin Hin'. apply list_elem_of_singleton in Hin'. cbn in Hin'.
      subst name. apply list_elem_of_fmap in Hin as ([p' ty'] & Hname & Hin).
      cbn in Hname. apply Hown in Hin. congruence.
    + cbn. apply NoDup_singleton.
Qed.

Lemma registerType_keeps_index_witness :
  indexConsistent
    (TypeRegistry.registerType (Some (2%N, Sample.ZLIGHT)) Sample.registry1).1.2.
Proof.
  apply registerType_keeps_index. split; [|split].
  - intros p ty Hin. apply list_elem_of_singleton in Hin as [= -> ->].
    reflexivity.
  - intros name p Hlook. exists Sample.ZGEOM.
    change (({[ "ZGEOM" := 1%N ]} : gmap string N) !! name = Some p) in Hlook.
    apply lookup_singleton_Some in Hlook as [<- <-].
    split; [by left | reflexivity].
  - cbn. apply NoDup_singleton.
Defined.

(** X11. [registerType] neither loses nor duplicates a descriptor: the
    descriptors owned by the registry followed by the one the caller's
    pointer still owns are, after the call, what they were before it. The
    registry is left as it was exactly when null is returned; and a
    returned pointer is the address of the passed descriptor, now indexed
    under its name, the caller's pointer being empty. *)
Theorem registerType_ownership (u : TypeRegistry.unique_ptr)
    (self : TypeRegistry.t) :
  let '(r, self', u') := TypeRegistry.registerType u self in
  TypeRegistry.m_types self' ++ option_list u'
  = TypeRegistry.m_types self ++ option_list u
  /\ (r = None <-> self' = self)
  /\ (forall p, r = Some p ->
        exists ty, u = Some (p, ty) /\ u' = None
                   /\ TypeRegistry.m_typesByName self' !! getName ty = Some p).
Proof.
  destruct self as [types byHash byName].
  destruct u as [[p ty]|]; cbn.
  2:{ split; [done|]. split; [done|]. discriminate. }
  unfold TypeRegistry.registerType, TypeRegistry.try_emplace. cbn.
  destruct (byName !! getName ty) as [q|] eqn:Hq; cbn.
  - split; [done|]. split; [done|]. discriminate.
  - split; [by rewrite app_nil_r|]. split.
    + split; [discriminate|]. intros [= Htypes _].
      apply (f_equal length) in Htypes. rewrite length_app in Htypes.
      cbn in Htypes. lia.
    + intros p' [= <-]. exists ty. by rewrite lookup_insert_eq.
Qed.

(** * Properties of the table model of the geometry chunks *)

Section TableModel.

Import ScenePrimitivesModel.

Variable K : Constants.

Lemma at_Some (l : list PRMChunk) (i : Z) chk :
  at_ l i = Some chk <-> (0 <= i)%Z /\ l !! Z.to_nat i = Some chk.
Proof.
  unfold at_. destruct (Z.leb_spec 0 i).
  - split; [intros H'; by split | by intros [_ H']].
  - split; [discriminate | lia].
Qed.

Lemma at_None (l : list PRMChunk) (i : Z) :
  at_ l i = None <-> ~ (0 <= i < Z.of_nat (length l))%Z.
Proof.
  unfold at_. destruct (Z.leb_spec 0 i); [|split; [lia | done]].
  rewrite lookup_ge_None. lia.
Qed.

Lemma display_in_range chk col : display K chk col <> VectorOutOfRange.
Proof. unfold display. repeat case_match; discriminate. Qed.

(** X13. [data] ends in the out-of-range exception of [chunks.at] exactly
    when a level is set and the row of the index is negative or not below
    the number of chunks; the role and the column play no part in it, so a
    query with an unknown role and a bad row throws too. *)
Theorem data_row_bounds (self : t) (index : QModelIndex) (role : Z) :
  data K self index role = VectorOutOfRange
  <-> exists level,
        m_level self = Some level
        /\ ~ (0 <= row index < Z.of_nat (length (chunks level)))%Z.
Proof.
  unfold data. destruct (m_level self) as [level|].
  2:{ split; [discriminate | intros (level & Hnone & _); discriminate]. }
  destruct (at_ (chunks level) (row index)) as [chk|] eqn:Hat.
  - split.
    + intros H. exfalso. pose proof (display_in_range chk (column index)).
      repeat case_match; by simplify_eq.
    + intros (level' & [= <-] & Hrow). apply at_None in Hrow. congruence.
  - split; [|done]. intros _. exists level. split; [done|]. by apply at_None.
Qed.

(** X14. When a level is set whose vertex-buffer chunks all have their vertex
    header and whose index-buffer chunks all have their index header, [data]
    returns a variant for every index whose row is within the chunks: it
    neither throws nor reads through a null header, for any role and
    column. *)
Theorem data_in_range_returns (self : t) (level : Level)
    (index : QModelIndex) (role : Z) :
  m_level self = Some level ->
  Forall headersPresent (chunks level) ->
  (0 <= row index < Z.of_nat (length (chunks level)))%Z ->
  exists q, data K self index role = Variant q.
Proof.
  intros Hlevel Hheaders Hrow. unfold data. rewrite Hlevel.
  destruct (at_ (chunks level) (row index)) as [chk|] eqn:Hat.
  2:{ apply at_None in Hat. lia. }
  apply at_Some in Hat as [_ Hat].
  apply list_elem_of_lookup_2 in Hat.
  rewrite Forall_forall in Hheaders. destruct (Hheaders _ Hat) as [Hv Hi].
  unfold display.
  repeat case_match; eauto.
  - destruct Hv as [? ?]; [by eapply bool_decide_eq_true|]. congruence.
  - destruct Hi as [? ?]; [by eapply bool_decide_eq_true|]. congruence.
Qed.

(** X15. After [setLevel] with a level, the kind role (when its value
    differs from the display role's) reads back the kind of the chunk at the
    row, whatever the column, and [rowCount] is the number of chunks of the
    level as long as that number fits an [int]. *)
Theorem setLevel_then_kind (self : t) (level : Level) (r : nat)
    (col : Z) (chk : PRMChunk) :
  kChunkKindRole K <> DisplayRole K ->
  chunks level !! r = Some chk ->
  (Z.of_nat (length (chunks level)) < 2 ^ 31)%Z ->
  data K (setLevel (Some level) self) (mkIndex (Z.of_nat r) col) (kChunkKindRole K)
  = Variant (QKind (getKind chk))
  /\ rowCount (setLevel (Some level) self) = Z.of_nat (length (chunks level)).
Proof.
  intros Hrole Hchk Hfits. split.
  - unfold data, setLevel. cbn [m_level row column].
    assert (at_ (chunks level) (Z.of_nat r) = Some chk) as ->.
    { apply at_Some. rewrite Nat2Z.id. split; [lia | done]. }
    rewrite (proj2 (Z.eqb_neq _ _) Hrole). by rewrite Z.eqb_refl.
  - unfold rowCount, setLevel, static_cast_int. cbn [m_level].
    rewrite Z.mod_small by lia. lia.
Qed.

(** X16. In the vertices column under the display role (the column value
    being distinct from those of the index, kind and size columns, as case
    labels are), a chunk that has its headers shows "N/A" exactly when it is
    not a vertex buffer. *)
Theorem vertices_column_NA (self : t) (level : Level) (r : nat) (chk : PRMChunk) :
  CID_VERTICES K <> CID_INDEX K ->
  CID_VERTICES K <> CID_KIND K ->
  CID_VERTICES K <> CID_SIZE K ->
  m_level self = Some level ->
  chunks level !! r = Some chk ->
  headersPresent chk ->
  data K self (mkIndex (Z.of_nat r) (CID_VERTICES K)) (DisplayRole K)
    = Variant (QString "N/A")
  <-> getKind chk <> CRK_VERTEX_BUFFER.
Proof.
  intros H1 H2 H3 Hlevel Hchk [Hv _]. unfold data. rewrite Hlevel.
  cbn [row column].
  assert (at_ (chunks level) (Z.of_nat r) = Some chk) as ->.
  { apply at_Some. rewrite Nat2Z.id. split; [lia | done]. }
  rewrite Z.eqb_refl. unfold display.
  rewrite (proj2 (Z.eqb_neq _ _) H1), (proj2 (Z.eqb_neq _ _) H2),
    (proj2 (Z.eqb_neq _ _) H3), Z.eqb_refl.
  destruct (decide (getKind chk = CRK_VERTEX_BUFFER)) as [Hk|Hk].
  - rewrite bool_decide_eq_true_2 by done.
    destruct (Hv Hk) as [f ->]. split; [|done].
    by destruct f.
  - by rewrite bool_decide_eq_false_2.
Qed.

(** X17. [headerData] returns a label exactly for the display role, the
    horizontal orientation and a section that is one of the five columns;
    every other query gets an invalid variant. *)
Theorem headerData_labels (self : t) (section : Z) (orientation : Orientation)
    (role : Z) :
  headerData K self section orientation role <> QInvalid
  <-> role = DisplayRole K /\ orientation = Horizontal
      /\ (section = CID_INDEX K \/ section = CID_KIND K \/ section = CID_SIZE K
          \/ section = CID_INDICES K \/ section = CID_VERTICES K).
Proof.
  unfold headerData.
  destruct (Z.eqb_spec role (DisplayRole K)) as [Hr|Hr]; cbn [andb].
  2:{ split; [intros H; by destruct H | by intros (Hrole & _)]. }
  destruct orientation.
  2:{ split; [intros H; by destruct H | intros (_ & Ho & _); discriminate]. }
  repeat match goal with
         | |- context [(section =? ?c)%Z] =>
             destruct (Z.eqb_spec section c)
         end.
  all: split; [intros H; split_and!; try done; try tauto; by destruct H
              | intros (_ & _ & Hs); try discriminate; intuition congruence].
Qed.

(** X18. The labels that [data] shows for the chunk kinds and for the vertex
    formats tell them apart: two kinds with the same label are the same
    kind, and two formats with the same label are the same format. *)
Theorem labels_tell_apart :
  (forall k1 k2, getKindAsQString k1 = getKindAsQString k2 -> k1 = k2)
  /\ (forall f1 f2,
        getVertexFormatAsQString f1 = getVertexFormatAsQString f2 -> f1 = f2).
Proof.
  split.
  - intros [] []; cbn; intros H; try reflexivity; discriminate.
  - intros [] []; cbn; intros H; try reflexivity; discriminate.
Qed.

End TableModel.

(** * Evaluations of the further properties *)

Lemma load_exception_index_witness :
  exists k : nat, (k < 2)%nat /\ 1%Z = (Z.of_nat k mod 2 ^ 32)%Z.
Proof.
  apply (load_exception_index Sample.byHash Sample.byShortName [1%N; 2%N]
           Sample.parentOfLeaf Sample.scene3
           (sceneAfter (Sample.decode [1%N; 2%N] Sample.parentOfLeaf Sample.scene3))
           (SceneObjectVisitorException 1
              "Invalid children definition (Expected EndObject)") 1%Z);
    reflexivity.
Defined.

Lemma load_Returned_only_root_witness :
  (([1%N] = [] \/ Sample.leaf = [])
   /\ sceneAfter (Sample.decode [1%N] Sample.leaf Sample.scene3) = Sample.scene3)
  \/ exists root rest v c,
       [1%N] = root :: rest
       /\ sceneAfter (Sample.decode [1%N] Sample.leaf Sample.scene3)
          = alter (setProperties v) root
              (alter (setControllers c) root Sample.scene3).
Proof.
  apply (load_Returned_only_root Sample.byHash Sample.byShortName [1%N]
           Sample.leaf Sample.scene3).
  reflexivity.
Defined.

Lemma child_without_placeholder_witness :
  visitImpl Sample.byHash Sample.byShortName [] None 1%N Sample.parentOfLeaf
    (MoreSamples.start Sample.scene3)
  = Throw OutOfRange
      (enterChild None 1%N
         (fillObject 1%N (mkValue (PComplex [("Value", PScalar 5)]) []) ∅
            (MoreSamples.start Sample.scene3))).
Proof.
  apply (child_without_placeholder Sample.byHash Sample.byShortName None 1%N
           Sample.parentOfLeaf
           ([Sample.container 0; Sample.container 1] ++ Sample.leaf
            ++ [Sample.instr PRPOpCode.EndObject])
           (Sample.leaf ++ [Sample.instr PRPOpCode.EndObject])
           (MoreSamples.start Sample.scene3)
           (mkValue (PComplex [("Value", PScalar 5)]) []) ∅ (Sample.container 1)).
  - reflexivity.
  - reflexivity.
  - by left.
  - reflexivity.
Defined.

Lemma stages_fail_before_writing_witness :
  exists e,
    visitImpl Sample.byHash Sample.byShortName [2%N] None 1%N
      [Sample.instr PRPOpCode.EndObject] (MoreSamples.start Sample.scene3)
    = Throw e (MoreSamples.start Sample.scene3).
Proof.
  apply stages_fail_before_writing.
  intros v ip1 c ip2 [H _]. discriminate H.
Defined.

Lemma verification_precedes_mapping_witness :
  visitImpl Sample.byHash Sample.byShortName [] None 1%N MoreSamples.notVerified
    (MoreSamples.start Sample.scene3)
  = Throw (SceneObjectVisitorException 0
             "Invalid instructions set (verification failed)")
      (MoreSamples.start Sample.scene3)
  /\ visitImpl MoreSamples.brokenByHash Sample.byShortName [] None 1%N Sample.leaf
       (MoreSamples.start Sample.scene3)
     = Throw (SceneObjectVisitorException 0
                "Invalid instructions set (verification failed) [2]")
         (MoreSamples.start Sample.scene3).
Proof.
  split.
  - apply (proj1 (verification_precedes_mapping Sample.byHash Sample.byShortName
                    [] None 1%N (Sample.placeholder 16) Sample.ZGEOM
                    (Sample.instr PRPOpCode.BeginObject)
                    [Sample.text "x"; Sample.instr PRPOpCode.EndObject;
                     Sample.container 0; Sample.container 0]
                    (MoreSamples.start Sample.scene3)
                    eq_refl eq_refl eq_refl)).
    reflexivity.
  - apply (proj2 (verification_precedes_mapping MoreSamples.brokenByHash
                    Sample.byShortName
                    [] None 1%N (Sample.placeholder 16) MoreSamples.Broken
                    (Sample.instr PRPOpCode.BeginObject)
                    [Sample.trivial 7; Sample.instr PRPOpCode.EndObject;
                     Sample.container 0; Sample.container 0]
                    (MoreSamples.start Sample.scene3)
                    eq_refl eq_refl eq_refl)).
    + reflexivity.
    + reflexivity.
Defined.

Lemma controller_decoded_witness :
  exists ty v pre e,
    Sample.byShortName "ZTimer" = Some ty
    /\ map ty [Sample.trivial 1; Sample.trivial 2; Sample.instr PRPOpCode.EndObject]
       = (Some v, pre ++ [e])
    /\ isEndObject e = true.
Proof.
  destruct (controller_decoded Sample.byShortName MoreSamples.surplusController []
              ∅
              {[ "ZTimer" :=
                   mkValue (PComplex [("Value", PScalar 1)])
                     [Sample.trivial 2] ]}
              (MoreSamples.start Sample.scene3)
              (MoreSamples.start Sample.scene3) eq_refl)
    as (i0 & i1 & rest & ty & v & pre & e & Hip & _ & _ & Hty & _ & Hmap & _ & He & _).
  injection Hip as <- <- <-.
  by exists ty, v, pre, e.
Defined.

Lemma controller_without_EndObject_witness :
  readController MoreSamples.strictByName MoreSamples.surplusController ∅
    (MoreSamples.start Sample.scene3)
  = Throw (SceneObjectVisitorException 0
             "Invalid controller definition (Expected EndObject)")
      (MoreSamples.start Sample.scene3)
  /\ readController Sample.byShortName MoreSamples.endlessController ∅
       (MoreSamples.start Sample.scene3)
     = Throw (SceneObjectVisitorException 0
                "Invalid controller definition: We have controller 'ZTimer' with unexposed instructions and without EndObject instruction!")
         (MoreSamples.start Sample.scene3).
Proof.
  split.
  - apply (proj1 (controller_without_EndObject MoreSamples.strictByName
                    (Sample.text "ZTimer") (Sample.instr PRPOpCode.BeginObject)
                    (Sample.trivial 2)
                    [Sample.trivial 1; Sample.trivial 2;
                     Sample.instr PRPOpCode.EndObject]
                    [Sample.instr PRPOpCode.EndObject]
                    Sample.ZGEOM (mkValue (PComplex [("Value", PScalar 1)]) [])
                    ∅ (MoreSamples.start Sample.scene3)
                    eq_refl eq_refl eq_refl eq_refl eq_refl eq_refl)).
    reflexivity.
  - apply (proj2 (controller_without_EndObject Sample.byShortName
                    (Sample.text "ZTimer") (Sample.instr PRPOpCode.BeginObject)
                    (Sample.trivial 2)
                    [Sample.trivial 1; Sample.trivial 2; Sample.trivial 3]
                    [Sample.trivial 3]
                    Sample.ZTimer (mkValue (PComplex [("Value", PScalar 1)]) [])
                    ∅ (MoreSamples.start Sample.scene3)
                    eq_refl eq_refl eq_refl eq_refl eq_refl eq_refl)).
    + reflexivity.
    + by repeat constructor.
Defined.

Lemma load_ignores_what_follows_witness :
  Sample.decode [1%N; 2%N; 3%N] MoreSamples.leafThenMore Sample.scene3
  = Returned
      (alter (setProperties (mkValue (PComplex [("Value", PScalar 7)]) [])) 1%N
         (alter (setControllers ∅) 1%N Sample.scene3)).
Proof.
  apply (load_ignores_what_follows Sample.byHash Sample.byShortName 1%N
           [2%N; 3%N] (Sample.placeholder 16) Sample.ZGEOM
           (Sample.instr PRPOpCode.BeginObject) (Sample.instr PRPOpCode.EndObject)
           (Sample.container 0) (Sample.container 0) [Sample.trivial 7]
           [Sample.trivial 9; Sample.instr PRPOpCode.BeginObject]);
    try reflexivity.
  by left.
Defined.

Lemma children_gate_rejects_witness :
  visitImpl Sample.byHash Sample.byShortName [] None 1%N
    [Sample.instr PRPOpCode.BeginObject; Sample.trivial 7;
     Sample.instr PRPOpCode.EndObject; Sample.container 0; Sample.trivial 3]
    (MoreSamples.start Sample.scene3)
  = Throw (SceneObjectVisitorException 0
             "Invalid controller definition (Expected Container with children geoms)")
      (fillObject 1%N (mkValue (PComplex [("Value", PScalar 7)]) []) ∅
         (MoreSamples.start Sample.scene3)).
Proof.
  apply (children_gate_rejects Sample.byHash Sample.byShortName [] None 1%N
           _ [Sample.container 0; Sample.trivial 3] []
           (MoreSamples.start Sample.scene3)
           (mkValue (PComplex [("Value", PScalar 7)]) []) ∅ (Sample.trivial 3)).
  - reflexivity.
  - reflexivity.
  - discriminate.
  - discriminate.
Defined.

Lemma data_in_range_returns_witness :
  exists q,
    ScenePrimitivesModel.data ScenePrimitivesModel.sampleConstants
      MoreSamples.shown (ScenePrimitivesModel.mkIndex 1 3) 0
    = ScenePrimitivesModel.Variant q.
Proof.
  apply (data_in_range_returns ScenePrimitivesModel.sampleConstants
           MoreSamples.shown ScenePrimitivesModel.sampleLevel).
  - reflexivity.
  - repeat constructor; try discriminate; cbn; eauto.
  - cbn. lia.
Defined.

Lemma setLevel_then_kind_witness :
  ScenePrimitivesModel.data ScenePrimitivesModel.sampleConstants
    (ScenePrimitivesModel.setLevel (Some ScenePrimitivesModel.sampleLevel)
       (ScenePrimitivesModel.mkModel None []))
    (ScenePrimitivesModel.mkIndex 1 7) 257
  = ScenePrimitivesModel.Variant
      (ScenePrimitivesModel.QKind ScenePrimitivesModel.CRK_INDEX_BUFFER)
  /\ ScenePrimitivesModel.rowCount
       (ScenePrimitivesModel.setLevel (Some ScenePrimitivesModel.sampleLevel)
          (ScenePrimitivesModel.mkModel None [])) = 3%Z.
Proof.
  apply (setLevel_then_kind ScenePrimitivesModel.sampleConstants
           (ScenePrimitivesModel.mkModel None [])
           ScenePrimitivesModel.sampleLevel 1%nat 7
           (ScenePrimitivesModel.mkChunk 1 ScenePrimitivesModel.CRK_INDEX_BUFFER
              96 None (Some 48%Z))).
  - discriminate.
  - reflexivity.
  - reflexivity.
Defined.

Lemma vertices_column_NA_witness :
  ScenePrimitivesModel.data ScenePrimitivesModel.sampleConstants
    MoreSamples.shown (ScenePrimitivesModel.mkIndex 1 4) 0
  = ScenePrimitivesModel.Variant (ScenePrimitivesModel.QString "N/A").
Proof.
  apply (vertices_column_NA ScenePrimitivesModel.sampleConstants
           MoreSamples.shown ScenePrimitivesModel.sampleLevel 1%nat
           (ScenePrimitivesModel.mkChunk 1 ScenePrimitivesModel.CRK_INDEX_BUFFER
              96 None (Some 48%Z))).
  - discriminate.
  - discriminate.
  - discriminate.
  - reflexivity.
  - reflexivity.
  - split; [discriminate | intros _; by eexists].
  - discriminate.
Defined.
